(** * AI Story Studio: the response-orchestration handlers of [App]

    A shallow embedding of the event handlers of the [App] component
    (turn orchestration, streaming continuation, selection-guarded actions
    and PDF export) and of [continueWritingStream] from
    [services/geminiService.ts], followed by the properties of the
    specification that concern them.

    Conventions of the model.
    - A JavaScript string is its sequence of UTF-16 code units.
    - A handler is a computation in a small monad that threads the
      component state, may complete abruptly with a thrown error, and
      records the component states it exposes: one entry for every call of
      a state setter and one for every suspension at an [await].
    - A handler is called from the latest render, so the state it closes
      over is the current one; a run goes from the call of the handler to
      its return, the backend answering at each [await].
    - A thrown value is an [Error]: the handlers read its [message] only.
    - The backend (chat session and content stream), [nanoid], the preview
      element and the rasterizer are section variables, so that every
      theorem holds for every behaviour of theirs. *)

From Stdlib Require Import List NArith Bool Arith Lia String Ascii.
Import ListNotations.

Set Implicit Arguments.

(** [length] is the length of a list throughout. *)
Abbreviation length := Datatypes.length (only parsing).

(* ===================================================================== *)
(** ** JavaScript strings *)
(* ===================================================================== *)

Module JsString.

(** A string value: the list of its UTF-16 code units. *)
Definition t : Type := list N.

(** An ASCII literal of the source. *)
Definition lit (s : string) : t := map N_of_ascii (list_ascii_of_string s).

(** The character U+0022, written apart from the literals. *)
Definition dquote : t := [34%N].

Fixpoint eqb (a b : t) : bool :=
  match a, b with
  | [], [] => true
  | x :: a', y :: b' => N.eqb x y && eqb a' b'
  | _, _ => false
  end.

(** [ToBoolean] on a string: every string but the empty one is truthy. *)
Definition truthy (s : t) : bool :=
  match s with
  | [] => false
  | _ :: _ => true
  end.

(** [a || b] on strings. *)
Definition or (a b : t) : t := if truthy a then a else b.

(** [a || b] when [a] is an optional argument: [undefined] is falsy. *)
Definition orOptional (a : option t) (b : t) : t :=
  match a with
  | Some a' => or a' b
  | None => b
  end.

(** The code units that [String.prototype.trim] strips: ECMAScript
    WhiteSpace (TAB, VT, FF, ZWNBSP and the Unicode space separators)
    and LineTerminator (LF, CR, LS, PS). *)
Definition isWhiteSpace (c : N) : bool :=
  (N.eqb c 9 || N.eqb c 10 || N.eqb c 11 || N.eqb c 12 || N.eqb c 13
   || N.eqb c 32 || N.eqb c 160 || N.eqb c 5760
   || (N.leb 8192 c && N.leb c 8202)
   || N.eqb c 8232 || N.eqb c 8233 || N.eqb c 8239 || N.eqb c 8287
   || N.eqb c 12288 || N.eqb c 65279)%bool.

Fixpoint trimStart (s : t) : t :=
  match s with
  | [] => []
  | c :: s' => if isWhiteSpace c then trimStart s' else s
  end.

Definition trimEnd (s : t) : t := rev (trimStart (rev s)).

Definition trim (s : t) : t := trimEnd (trimStart s).

(** [s.endsWith(suffix)]. *)
Definition endsWith (s suffix : t) : bool :=
  (length suffix <=? length s)
  && eqb (skipn (length s - length suffix) s) suffix.

(** Every code unit of the string is white space (the empty string
    included). *)
Definition blank (s : t) : bool := forallb isWhiteSpace s.

End JsString.

Abbreviation jsstring := JsString.t.
Notation "'js' s" := (JsString.lit s%string) (at level 9, s at level 0, only parsing).

(* ===================================================================== *)
(** ** Data model *)
(* ===================================================================== *)

Inductive Theme : Type := light | dark.

Inductive Role : Type := user | model | system.

(** [ChatMessage]; [isThinking] is an optional field. *)
Record ChatMessage : Type := mkChatMessage {
  id : jsstring;
  role : Role;
  content : jsstring;
  isThinking : option bool
}.

(** The [useState] cells of [App]. *)
Record AppState : Type := mkAppState {
  theme : Theme;
  isFocusMode : bool;
  storyContent : jsstring;
  selectedText : jsstring;
  isAiResponding : bool;
  chatHistory : list ChatMessage;
  isExportingPdf : bool
}.

(** A thrown value, through the one thing the handlers read of it. *)
Record JsError : Type := mkJsError { message : jsstring }.

(** A request that reached the backend. *)
Inductive GatewayCall : Type :=
| SendMessage (prompt : jsstring)
| GenerateContentStream (contents : jsstring).

(** Everything the handlers act on: the component state, the number of
    [nanoid()] calls made so far, the requests issued to the backend and
    the files handed to [pdf.save]. *)
Record World : Type := mkWorld {
  app : AppState;
  nanoCalls : nat;
  gatewayLog : list GatewayCall;
  savedFiles : list jsstring
}.

Definition withApp (w : World) (a : AppState) : World :=
  mkWorld a (nanoCalls w) (gatewayLog w) (savedFiles w).

(* ===================================================================== *)
(** ** The handler monad *)
(* ===================================================================== *)

Inductive Completion (A : Type) : Type :=
| Normal (a : A)
| Throw (e : JsError).
Arguments Throw {A} e.

(** The run of a computation: how it completed, the world it left, and
    the component states it exposed on the way, oldest first. *)
Record Run (A : Type) : Type := mkRun {
  completion : Completion A;
  final : World;
  trace : list AppState
}.

Definition M (A : Type) : Type := World -> Run A.

Definition ret {A} (a : A) : M A := fun w => mkRun (Normal a) w [].

Definition throw {A} (e : JsError) : M A := fun w => mkRun (Throw e) w [].

Definition bind {A B} (m : M A) (f : A -> M B) : M B := fun w =>
  let r := m w in
  match completion r with
  | Normal a =>
      let r' := f a (final r) in
      mkRun (completion r') (final r') (trace r ++ trace r')
  | Throw e => mkRun (Throw e) (final r) (trace r)
  end.

Declare Scope handler_scope.
Delimit Scope handler_scope with handler.
Notation "x <- m ;; k" := (bind m (fun x => k))
  (at level 61, m at next level, right associativity) : handler_scope.
Notation "m ;; k" := (bind m (fun _ => k))
  (at level 61, right associativity) : handler_scope.
Local Open Scope handler_scope.

(** [try { body } catch (e) { handler e } finally { finalizer }]: the
    finalizer runs on every path; a throw of the finalizer replaces the
    completion reached before it. *)
Definition tryCatchFinally {A} (body : M A) (handler : JsError -> M A)
    (finalizer : M unit) : M A := fun w =>
  let r := body w in
  let r1 :=
    match completion r with
    | Normal _ => r
    | Throw e =>
        let h := handler e (final r) in
        mkRun (completion h) (final h) (trace r ++ trace h)
    end in
  let r2 := finalizer (final r1) in
  match completion r2 with
  | Normal _ => mkRun (completion r1) (final r2) (trace r1 ++ trace r2)
  | Throw e => mkRun (Throw e) (final r2) (trace r1 ++ trace r2)
  end.

(** The values a handler closes over: the state of the render that
    created it. *)
Definition captured : M AppState := fun w => mkRun (Normal (app w)) w [].

(** A state setter: the new state is exposed to the rest of the
    application. *)
Definition setState (f : AppState -> AppState) : M unit := fun w =>
  let a := f (app w) in mkRun (Normal tt) (withApp w a) [a].

(** Suspension at an [await]: the current state stays exposed while the
    handler waits. *)
Definition suspend : M unit := fun w => mkRun (Normal tt) w [app w].

(** Field updates of the component state. *)
Definition set_theme (v : Theme) (s : AppState) : AppState :=
  mkAppState v (isFocusMode s) (storyContent s) (selectedText s)
    (isAiResponding s) (chatHistory s) (isExportingPdf s).

Definition set_storyContent (v : jsstring) (s : AppState) : AppState :=
  mkAppState (theme s) (isFocusMode s) v (selectedText s)
    (isAiResponding s) (chatHistory s) (isExportingPdf s).

Definition set_isAiResponding (v : bool) (s : AppState) : AppState :=
  mkAppState (theme s) (isFocusMode s) (storyContent s) (selectedText s)
    v (chatHistory s) (isExportingPdf s).

Definition set_chatHistory (v : list ChatMessage) (s : AppState) : AppState :=
  mkAppState (theme s) (isFocusMode s) (storyContent s) (selectedText s)
    (isAiResponding s) v (isExportingPdf s).

Definition set_isExportingPdf (v : bool) (s : AppState) : AppState :=
  mkAppState (theme s) (isFocusMode s) (storyContent s) (selectedText s)
    (isAiResponding s) (chatHistory s) v.

Definition setTheme (v : Theme) : M unit := setState (set_theme v).

Definition setStoryContent (v : jsstring) : M unit := setState (set_storyContent v).

Definition setIsAiResponding (v : bool) : M unit := setState (set_isAiResponding v).

(** [setChatHistory(prev => f prev)]. *)
Definition setChatHistory (f : list ChatMessage -> list ChatMessage) : M unit :=
  setState (fun s => set_chatHistory (f (chatHistory s)) s).

Definition setIsExportingPdf (v : bool) : M unit := setState (set_isExportingPdf v).

(* ===================================================================== *)
(** ** The handlers of [App] and the gateway of [geminiService] *)
(* ===================================================================== *)

(** A chunk of the content stream, through its [text]. *)
Record Chunk : Type := mkChunk { text : jsstring }.

(** What the async iterable of a stream delivers: its chunks in order,
    then the end of the sequence or an interruption. *)
Record Stream : Type := mkStream {
  chunks : list Chunk;
  interruption : option JsError
}.

(** [{ ...msg, content: c, isThinking: false }]. *)
Definition resolved (msg : ChatMessage) (c : jsstring) : ChatMessage :=
  mkChatMessage (id msg) (role msg) c (Some false).

(** [prev.map(msg => msg.id === thinkingId ? {...msg, content: c, isThinking: false} : msg)]. *)
Definition resolveTurn (thinkingId c : jsstring) (prev : list ChatMessage)
    : list ChatMessage :=
  map (fun msg => if JsString.eqb (id msg) thinkingId then resolved msg c else msg) prev.

(** [prev.filter(msg => msg.id !== thinkingId)]. *)
Definition discardTurn (thinkingId : jsstring) (prev : list ChatMessage)
    : list ChatMessage :=
  filter (fun msg => negb (JsString.eqb (id msg) thinkingId)) prev.

(** The [contents] that [continueWritingStream] hands to the backend:
    [storyContent || "Start a new, intriguing story."]. *)
Definition streamContents (storyContent : jsstring) : jsstring :=
  JsString.or storyContent (js "Start a new, intriguing story.").

(** The starting value of [currentContent] in [handleContinueWriting]. *)
Definition initialCurrentContent (storyContent : jsstring) : jsstring :=
  if (0 <? length storyContent) && negb (JsString.endsWith storyContent (js " "))
  then storyContent ++ js " "
  else storyContent.

Section Handlers.

(** [chatInstance.current.sendMessage]: given the requests made so far
    (the session keeps its context on the backend side) and the prompt,
    the [text] of the response, or a thrown error. *)
Variable chatSession : list GatewayCall -> jsstring -> Completion jsstring.

(** [ai.models.generateContentStream]: the stream that opens for the
    given contents, or a thrown error. *)
Variable generateContentStream : list GatewayCall -> jsstring -> Completion Stream.

(** The value of the n-th call of [nanoid()]. *)
Variable nanoidValue : nat -> jsstring.

Definition nanoid : M jsstring := fun w =>
  mkRun (Normal (nanoidValue (nanoCalls w)))
        (mkWorld (app w) (S (nanoCalls w)) (gatewayLog w) (savedFiles w)) [].

(** [await chatInstance.current.sendMessage(fullPrompt)], up to [response.text]. *)
Definition sendMessage (fullPrompt : jsstring) : M jsstring := fun w =>
  mkRun (chatSession (gatewayLog w) fullPrompt)
        (mkWorld (app w) (nanoCalls w)
                 (gatewayLog w ++ [SendMessage fullPrompt]) (savedFiles w))
        [app w].

(** [await geminiService.continueWritingStream(storyContent)]. *)
Definition continueWritingStream (storyContent : jsstring) : M Stream := fun w =>
  let contents := streamContents storyContent in
  mkRun (generateContentStream (gatewayLog w) contents)
        (mkWorld (app w) (nanoCalls w)
                 (gatewayLog w ++ [GenerateContentStream contents]) (savedFiles w))
        [app w].

(** [for await (const chunk of stream) { currentContent += chunk.text;
    setStoryContent(currentContent); }], returning [currentContent]. *)
Fixpoint forAwait (cs : list Chunk) (interrupt : option JsError)
    (currentContent : jsstring) : M jsstring :=
  match cs with
  | [] =>
      suspend ;;
      match interrupt with
      | None => ret currentContent
      | Some e => throw e
      end
  | chunk :: rest =>
      suspend ;;
      let currentContent := currentContent ++ text chunk in
      setStoryContent currentContent ;;
      forAwait rest interrupt currentContent
  end.

Definition handleSendMessage (prompt : jsstring) (hiddenPrompt : option jsstring)
    : M unit :=
  setIsAiResponding true ;;
  thinkingId <- nanoid ;;
  userTurn <- (if JsString.truthy prompt
               then (i <- nanoid ;; ret [mkChatMessage i user prompt None])
               else ret []) ;;
  setChatHistory (fun prev =>
    prev ++ userTurn
         ++ [mkChatMessage thinkingId model (js "Thinking...") (Some true)]) ;;
  tryCatchFinally
    (let fullPrompt := JsString.orOptional hiddenPrompt prompt in
     response <- sendMessage fullPrompt ;;
     setChatHistory (resolveTurn thinkingId response))
    (fun e =>
       let errorContent := js "An error occurred: " ++ message e in
       setChatHistory (resolveTurn thinkingId errorContent))
    (setIsAiResponding false).

Definition addSystemMessage (c : jsstring) : M unit :=
  i <- nanoid ;;
  setChatHistory (fun prev => prev ++ [mkChatMessage i system c None]).

Definition handleSuggestTitles : M unit :=
  s <- captured ;;
  handleSendMessage []
    (Some (js "Based on the following story, suggest 5 creative titles. Story: "
           ++ JsString.dquote ++ storyContent s ++ JsString.dquote)).

Definition handleGetCharacterIdeas : M unit :=
  handleSendMessage []
    (Some (js "Generate 3 diverse and interesting character ideas for a story. Provide a name and a short description for each.")).

Definition handleSuggestPlotTwist : M unit :=
  s <- captured ;;
  handleSendMessage []
    (Some (js "Based on the following story, suggest one surprising plot twist. Story: "
           ++ JsString.dquote ++ storyContent s ++ JsString.dquote)).

Definition handleImproveWriting : M unit :=
  s <- captured ;;
  if negb (JsString.truthy (JsString.trim (selectedText s)))
  then addSystemMessage (js "Please select some text in the editor to improve.")
  else handleSendMessage []
    (Some (js "Rewrite the following text to be more vivid and engaging, improving the prose without adding new plot points. Text: "
           ++ JsString.dquote ++ selectedText s ++ JsString.dquote)).

Definition handleContinueWriting : M unit :=
  s <- captured ;;
  if isAiResponding s then ret tt else
  setIsAiResponding true ;;
  thinkingId <- nanoid ;;
  setChatHistory (fun prev =>
    prev ++ [mkChatMessage thinkingId model (js "Continuing the story...") (Some true)]) ;;
  tryCatchFinally
    (stream <- continueWritingStream (storyContent s) ;;
     let currentContent := initialCurrentContent (storyContent s) in
     forAwait (chunks stream) (interruption stream) currentContent ;;
     setChatHistory (discardTurn thinkingId))
    (fun e =>
       let errorContent := js "An error occurred while streaming: " ++ message e in
       setChatHistory (resolveTurn thinkingId errorContent))
    (setIsAiResponding false).

Definition handleLanguageSelect (language : jsstring) : M unit :=
  s <- captured ;;
  if negb (JsString.truthy (JsString.trim (selectedText s)))
  then ret tt
  else handleSendMessage []
    (Some (js "Translate the following text into " ++ language
           ++ js ". Only return the translated text. Text: "
           ++ JsString.dquote ++ selectedText s ++ JsString.dquote)).

Definition handleTranslate : M unit :=
  s <- captured ;;
  if negb (JsString.truthy (JsString.trim (selectedText s)))
  then addSystemMessage (js "Please select some text to translate.")
  else addSystemMessage (js "translate").

Definition handleExportPdf : M unit :=
  s <- captured ;;
  if JsString.truthy (JsString.trim (storyContent s))
  then setIsExportingPdf true
  else ret tt.

(** *** The export effect *)

(** Whether [pdfRef.current] is set when the export worker runs. *)
Variable pdfRefCurrent : bool.

(** [html2canvas] on the preview of the given content, and the [jsPDF]
    steps up to [addImage]: they go through or throw. *)
Variable html2canvas : jsstring -> Completion unit.

(** [pdf.save(filename)]. *)
Definition pdfSave (filename : jsstring) : M unit := fun w =>
  mkRun (Normal tt)
        (mkWorld (app w) (nanoCalls w) (gatewayLog w) (savedFiles w ++ [filename]))
        [].

Definition exportWorker : M unit :=
  if negb pdfRefCurrent then setIsExportingPdf false else
  tryCatchFinally
    (suspend ;;
     s <- captured ;;
     (fun w => mkRun (html2canvas (storyContent s)) w []) ;;
     pdfSave (js "ai-story.pdf"))
    (fun _ => addSystemMessage (js "Could not export to PDF. See console for details."))
    (setIsExportingPdf false).

(** The body of the effect on [isExportingPdf]; the delay of
    [setTimeout(exportWorker, 100)] is not modelled. *)
Definition exportEffect : M unit :=
  s <- captured ;;
  if negb (isExportingPdf s) then ret tt else exportWorker.

(** The effect has [[isExportingPdf]] as its dependencies: after a
    handler has run, it runs again only when that cell has changed. *)
Definition afterRender (before : AppState) : M unit :=
  s <- captured ;;
  if Bool.eqb (isExportingPdf before) (isExportingPdf s)
  then ret tt
  else exportEffect.

(** The export button: the handler, then the effects it triggers. *)
Definition exportRequest : M unit :=
  before <- captured ;;
  handleExportPdf ;;
  afterRender before.

End Handlers.

(* ===================================================================== *)
(** ** Vocabulary of the properties *)
(* ===================================================================== *)

(** The states exposed by one orchestration, from invocation to
    resolution: [isAiResponding] is set in every state but the last, of
    which there is at least one, and cleared in the last. *)
Definition orchestrationInterval (tr : list AppState) : Prop :=
  exists inflight last,
    tr = inflight ++ [last]
    /\ inflight <> []
    /\ Forall (fun s => isAiResponding s = true) inflight
    /\ isAiResponding last = false.

(** A handler that did nothing but append one system turn: it made no
    request to the backend, it exposed one state, and that state differs
    from the initial one by a last turn of role [system] that is no
    placeholder. *)
Definition advisoryOnly (w : World) (r : Run unit) : Prop :=
  completion r = Normal tt
  /\ gatewayLog (final r) = gatewayLog w
  /\ savedFiles (final r) = savedFiles w
  /\ trace r = [app (final r)]
  /\ exists m, role m = system /\ isThinking m = None
       /\ app (final r) = set_chatHistory (chatHistory (app w) ++ [m]) (app w).

(** *** States and ledgers of the two orchestrations *)

(** The text a list of chunks adds up to. *)
Definition streamedText (cs : list Chunk) : jsstring := List.concat (map text cs).

(** The component state once the loop has consumed the chunks [cs],
    starting from [currentContent]: no chunk, no write. *)
Definition afterChunks (cs : list Chunk) (currentContent : jsstring)
    (s : AppState) : AppState :=
  match cs with
  | [] => s
  | _ :: _ => set_storyContent (currentContent ++ streamedText cs) s
  end.

(** The placeholder turn of a turn orchestration. *)
Definition thinkingTurn (thinkingId : jsstring) : ChatMessage :=
  mkChatMessage thinkingId model (js "Thinking...") (Some true).

(** The visible user turn, when the prompt is not empty; its id is the
    second [nanoid()] of the handler. *)
Definition userTurnOf (i prompt : jsstring) : list ChatMessage :=
  if JsString.truthy prompt then [mkChatMessage i user prompt None] else [].

(** The text the placeholder is resolved to. *)
Definition resolutionText (reply : Completion jsstring) : jsstring :=
  match reply with
  | Normal t => t
  | Throw e => js "An error occurred: " ++ message e
  end.

(** The placeholder turn of a continuation. *)
Definition continuingTurn (thinkingId : jsstring) : ChatMessage :=
  mkChatMessage thinkingId model (js "Continuing the story...") (Some true).

(** The state in which the stream is requested: [isAiResponding] is set
    and the placeholder is in the ledger. *)
Definition requesting (thinkingId : jsstring) (s : AppState) : AppState :=
  set_chatHistory (chatHistory s ++ [continuingTurn thinkingId])
    (set_isAiResponding true s).

(** The ledger once the continuation is over: the placeholder is
    discarded (the stream ended) or resolved to the error text (the
    stream was interrupted or could not be opened). *)
Definition settledHistory (thinkingId : jsstring) (failure : option JsError)
    (prev : list ChatMessage) : list ChatMessage :=
  match failure with
  | None => discardTurn thinkingId prev
  | Some e =>
      resolveTurn thinkingId
        (js "An error occurred while streaming: " ++ message e) prev
  end.

(** The state after the [try] or the [catch] block, [isAiResponding]
    still set. *)
Definition resolving (thinkingId : jsstring) (failure : option JsError)
    (s : AppState) : AppState :=
  set_chatHistory (settledHistory thinkingId failure (chatHistory s)) s.

(** The state after the [finally] block. *)
Definition settled (thinkingId : jsstring) (failure : option JsError)
    (s : AppState) : AppState :=
  set_isAiResponding false (resolving thinkingId failure s).

(** *** Concrete inputs *)

(** A fresh session: nothing in flight, an empty ledger, the given
    manuscript and selection. *)
Definition idleWorld (story selection : jsstring) : World :=
  mkWorld (mkAppState dark false story selection false [] false) 0 [] [].

(** A session with a turn orchestration in flight. *)
Definition busyWorld : World :=
  mkWorld (mkAppState dark false (js "Once upon a time") [] true
             [mkChatMessage (js "t0") model (js "Thinking...") (Some true)] false)
          1 [SendMessage (js "first")] [].

Definition heroChunks : list Chunk :=
  [mkChunk (js ","); mkChunk (js " a hero"); mkChunk (js " rose.")].

(** Backends that answer every request the same way. *)
Definition streamOf (cs : list Chunk) (interrupt : option JsError)
    : list GatewayCall -> jsstring -> Completion Stream :=
  fun _ _ => Normal (mkStream cs interrupt).

Definition chatEcho : list GatewayCall -> jsstring -> Completion jsstring :=
  fun _ prompt => Normal prompt.

Definition chatDown (e : JsError) : list GatewayCall -> jsstring -> Completion jsstring :=
  fun _ _ => Throw e.

(** An id generator: the n-th id is the code unit n after a prefix. *)
Definition nanoidSeq (n : nat) : jsstring := js "id-" ++ [N.of_nat n].

Definition quotaError : JsError := mkJsError (js "quota exceeded").

(* ===================================================================== *)
(** ** The rest of the component *)
(* ===================================================================== *)

(** [s.substring(start, end)] for indices that are non-negative integers,
    [end] optional: both are clamped to the length and swapped when out of
    order. *)
Definition substring (s : jsstring) (start : nat) (stop : option nat) : jsstring :=
  let len := length s in
  let finalStart := Nat.min start len in
  let finalEnd := match stop with Some e => Nat.min e len | None => len end in
  let from := Nat.min finalStart finalEnd in
  let to := Nat.max finalStart finalEnd in
  firstn (to - from) (skipn from s).

(** What [handleSuggestionClick] reads of the textarea. *)
Record TextArea : Type := mkTextArea {
  selectionStart : nat;
  selectionEnd : nat
}.

Section Editing.

(** [editorRef.current]: the textarea, or [null]. *)
Variable editorRef : option TextArea.

(** The focus that the handler gives back to the textarea is not part of
    the state. *)
Definition handleSuggestionClick (text : jsstring) : M unit :=
  s <- captured ;;
  match editorRef with
  | Some el =>
      let newText :=
        substring (storyContent s) 0 (Some (selectionStart el))
        ++ text ++ substring (storyContent s) (selectionEnd el) None in
      setStoryContent newText
  | None => ret tt
  end.

End Editing.

Section Shortcuts.

Variable chatSession : list GatewayCall -> jsstring -> Completion jsstring.
Variable nanoidValue : nat -> jsstring.

(** The [onDiscussIdea] and [onWritersBlock] properties of the toolbar. *)
Definition onDiscussIdea : M unit :=
  handleSendMessage chatSession nanoidValue
    (js "Let's brainstorm some ideas for my story.") None.

Definition onWritersBlock : M unit :=
  addSystemMessage nanoidValue (js "writers_block").

End Shortcuts.

(** *** The theme preference *)

(** The theme is kept here as the string it is at run time: the value
    read from [localStorage] is asserted, not checked, to be a [Theme]. *)
Record ThemeCells : Type := mkThemeCells {
  themeValue : jsstring;           (* the [theme] state *)
  storedTheme : option jsstring;   (* the item 'story-studio-theme' *)
  darkClass : bool                 (* 'dark' in the class list of the root *)
}.

(** The effect on [[theme]]: [classList.toggle('dark', theme === 'dark')]
    and [localStorage.setItem('story-studio-theme', theme)]. *)
Definition applyTheme (c : ThemeCells) : ThemeCells :=
  mkThemeCells (themeValue c) (Some (themeValue c))
    (JsString.eqb (themeValue c) (js "dark")).

(** A state update followed by the effects it triggers: the effect on
    [[theme]] runs again only when the value has changed. *)
Definition renderTheme (v : jsstring) (c : ThemeCells) : ThemeCells :=
  if JsString.eqb v (themeValue c) then c
  else applyTheme (mkThemeCells v (storedTheme c) (darkClass c)).

(** The first render and its two effects, in the order of the source: the
    state starts as ['dark']; the first effect reads the stored value and
    asks for [savedTheme || 'dark']; the second applies the theme of the
    first render; then the requested theme is rendered. *)
Definition mountTheme (stored : option jsstring) (classBefore : bool) : ThemeCells :=
  let c0 := mkThemeCells (js "dark") stored classBefore in
  let initialTheme := JsString.orOptional (storedTheme c0) (js "dark") in
  renderTheme initialTheme (applyTheme c0).

(** [setTheme(prev => prev === 'light' ? 'dark' : 'light')]. *)
Definition toggleTheme (c : ThemeCells) : ThemeCells :=
  renderTheme
    (if JsString.eqb (themeValue c) (js "light") then js "dark" else js "light") c.

(** A session: the mount, then a number of clicks on the theme button. *)
Definition themeSession (stored : option jsstring) (classBefore : bool) (clicks : nat)
    : ThemeCells :=
  Nat.iter clicks toggleTheme (mountTheme stored classBefore).

(** *** Vocabulary of the further properties *)

(** A turn orchestration without a visible prompt: the handler completes
    normally, makes the one request [hiddenPrompt] to the backend, draws
    one id, and adds to the roles of the ledger one assistant turn and no
    user turn. *)
Definition silentTurn (w : World) (hiddenPrompt : jsstring) (r : Run unit) : Prop :=
  completion r = Normal tt
  /\ gatewayLog (final r) = gatewayLog w ++ [SendMessage hiddenPrompt]
  /\ nanoCalls (final r) = S (nanoCalls w)
  /\ map role (chatHistory (app (final r))) = map role (chatHistory (app w)) ++ [model].

(** [y] is [x] with text appended. *)
Definition extendedBy (x y : jsstring) : Prop := exists t, y = x ++ t.

(** The run of a handler that does nothing but call [addSystemMessage]
    with the content [c]: one id is drawn, one system turn with that id and
    content ends the ledger, the one state exposed is the state left, and
    the requests and the saved files are as they were. *)
Definition advisoryRun (nanoidValue : nat -> jsstring) (w : World) (c : jsstring)
    : Run unit :=
  let s := set_chatHistory
             (chatHistory (app w)
              ++ [mkChatMessage (nanoidValue (nanoCalls w)) system c None])
             (app w) in
  mkRun (Normal tt) (mkWorld s (S (nanoCalls w)) (gatewayLog w) (savedFiles w)) [s].

(** *** A turn orchestration around its [await] *)

Section TurnAroundAwait.

Variable nanoidValue : nat -> jsstring.

(** [handleSendMessage] up to the [await] of line 57: the flag is set,
    the turns are appended, the request leaves for the backend and the
    handler is suspended, holding the id of its placeholder. *)
Definition sendMessageUntilAwait (prompt : jsstring) (hiddenPrompt : option jsstring)
    : M jsstring :=
  setIsAiResponding true ;;
  thinkingId <- nanoid nanoidValue ;;
  userTurn <- (if JsString.truthy prompt
               then (i <- nanoid nanoidValue ;; ret [mkChatMessage i user prompt None])
               else ret []) ;;
  setChatHistory (fun prev =>
    prev ++ userTurn
         ++ [mkChatMessage thinkingId model (js "Thinking...") (Some true)]) ;;
  let fullPrompt := JsString.orOptional hiddenPrompt prompt in
  (fun w =>
     mkRun (Normal thinkingId)
           (mkWorld (app w) (nanoCalls w)
                    (gatewayLog w ++ [SendMessage fullPrompt]) (savedFiles w))
           [app w]).

(** [handleSendMessage] from the [await] on, when the backend has
    settled the request with [reply]: the rest of the [try] block or the
    [catch] block, then the [finally] block. *)
Definition sendMessageFromAwait (thinkingId : jsstring) (reply : Completion jsstring)
    : M unit :=
  tryCatchFinally
    (response <- (fun w => mkRun reply w []) ;;
     setChatHistory (resolveTurn thinkingId response))
    (fun e =>
       let errorContent := js "An error occurred: " ++ message e in
       setChatHistory (resolveTurn thinkingId errorContent))
    (setIsAiResponding false).

(** Two turn orchestrations that overlap: the second is requested while
    the first awaits the backend, and the backend settles the second
    first.  The value is the component state between the resolution of the
    second and that of the first. *)
Definition overlappingTurns (first second : jsstring)
    (replyToSecond replyToFirst : Completion jsstring) : M AppState :=
  a <- sendMessageUntilAwait first None ;;
  b <- sendMessageUntilAwait second None ;;
  sendMessageFromAwait b replyToSecond ;;
  between <- captured ;;
  sendMessageFromAwait a replyToFirst ;;
  ret between.

End TurnAroundAwait.

(** *** More concrete inputs *)

Definition threeTurns : list ChatMessage :=
  [mkChatMessage (js "a") system (js "welcome") None;
   mkChatMessage (js "b") user (js "hello") None;
   mkChatMessage (js "c") model (js "hi there") (Some false)].

Definition talkingWorld (story selection : jsstring) : World :=
  mkWorld (mkAppState dark false story selection false threeTurns false) 0 [] [].

(* ===================================================================== *)
(** ** Facts about JavaScript strings *)
(* ===================================================================== *)

Module JsStringFacts.
Import JsString.

Lemma eqb_refl (a : t) : eqb a a = true.
Proof.
  induction a as [|x a IH]; simpl; [reflexivity|].
  now rewrite N.eqb_refl, IH.
Qed.

Lemma eqb_eq (a b : t) : eqb a b = true <-> a = b.
Proof.
  split.
  - revert b; induction a as [|x a IH]; intros [|y b]; simpl; try discriminate; auto.
    intros H. apply andb_true_iff in H as [Hx Hab].
    apply N.eqb_eq in Hx. f_equal; auto.
  - intros ->. apply eqb_refl.
Qed.

Lemma eqb_neq (a b : t) : eqb a b = false <-> a <> b.
Proof.
  rewrite <- eqb_eq. destruct (eqb a b); split; congruence.
Qed.

Lemma truthy_false (s : t) : truthy s = false <-> s = [].
Proof. destruct s; simpl; split; congruence. Qed.

Lemma truthy_length (s : t) : truthy s = (0 <? length s).
Proof. destruct s; reflexivity. Qed.

Lemma or_nonempty (a b : t) : b <> [] -> or a b <> [].
Proof. unfold or. destruct a; simpl; congruence. Qed.

Lemma trimStart_nil (s : t) : trimStart s = [] <-> blank s = true.
Proof.
  induction s as [|c s IH]; simpl.
  - tauto.
  - destruct (isWhiteSpace c); simpl; [exact IH|].
    split; discriminate.
Qed.

(** What [trimStart] leaves is empty or starts with a code unit that is
    not white space. *)
Lemma trimStart_head (s : t) :
  match trimStart s with
  | [] => True
  | c :: _ => isWhiteSpace c = false
  end.
Proof.
  induction s as [|c s IH]; simpl; [exact I|].
  destruct (isWhiteSpace c) eqn:E; [exact IH| exact E].
Qed.

Lemma blank_rev (s : t) : blank (rev s) = blank s.
Proof.
  unfold blank. induction s as [|c s IH]; simpl; [reflexivity|].
  rewrite forallb_app, IH. simpl. rewrite andb_true_r. apply andb_comm.
Qed.

Lemma trim_nil (s : t) : trim s = [] <-> blank s = true.
Proof.
  unfold trim, trimEnd. split.
  - intros H.
    assert (Hr : trimStart (rev (trimStart s)) = []).
    { apply (f_equal (@rev N)) in H. rewrite rev_involutive in H. exact H. }
    apply trimStart_nil in Hr. rewrite blank_rev in Hr.
    apply trimStart_nil.
    pose proof (trimStart_head s) as Hh.
    destruct (trimStart s) as [|c r]; [reflexivity|].
    simpl in Hr. rewrite Hh in Hr. discriminate.
  - intros H. apply trimStart_nil in H. rewrite H. reflexivity.
Qed.

(** [!s.trim()] holds exactly of the empty and the white-space-only
    strings. *)
Lemma not_truthy_trim (s : t) : negb (truthy (trim s)) = blank s.
Proof.
  destruct (blank s) eqn:E.
  - apply trim_nil in E. rewrite E. reflexivity.
  - destruct (trim s) eqn:T; [|reflexivity].
    apply trim_nil in T. congruence.
Qed.

Lemma endsWith_snoc (s : t) (c d : N) : endsWith (s ++ [c]) [d] = N.eqb c d.
Proof.
  unfold endsWith. rewrite length_app. simpl.
  replace (length s + 1 - 1) with (length s + 0) by lia.
  rewrite skipn_app, Nat.add_0_r, skipn_all, Nat.sub_diag. simpl.
  rewrite andb_true_r.
  destruct (length s + 1) eqn:L; [lia|reflexivity].
Qed.

(** [s.endsWith(' ')] holds exactly when the last code unit of [s] is
    U+0020. *)
Lemma endsWith_space (s : t) :
  endsWith s (lit " ") = true <-> exists s', s = s' ++ [32%N].
Proof.
  change (lit " ") with [32%N].
  induction s as [|c s' _] using rev_ind.
  - split; [discriminate|]. intros [[|x r] H]; discriminate.
  - rewrite endsWith_snoc. split.
    + intros H. apply N.eqb_eq in H. subst c. now exists s'.
    + intros [r H]. apply app_inj_tail in H as [_ ->]. reflexivity.
Qed.

End JsStringFacts.

(* ===================================================================== *)
(** ** The streaming loop *)
(* ===================================================================== *)

Lemma World_eta (w : World) :
  w = mkWorld (app w) (nanoCalls w) (gatewayLog w) (savedFiles w).
Proof. destruct w; reflexivity. Qed.

Lemma set_storyContent_twice (u v : jsstring) (s : AppState) :
  set_storyContent v (set_storyContent u s) = set_storyContent v s.
Proof. reflexivity. Qed.

Lemma forAwait_nil interrupt cur w :
  forAwait [] interrupt cur w =
  mkRun (match interrupt with None => Normal cur | Some e => Throw e end) w [app w].
Proof. destruct interrupt; reflexivity. Qed.

Lemma forAwait_cons c cs interrupt cur w :
  forAwait (c :: cs) interrupt cur w =
  let cur' := cur ++ text c in
  let s' := set_storyContent cur' (app w) in
  let r := forAwait cs interrupt cur' (withApp w s') in
  mkRun (completion r) (final r) (app w :: s' :: trace r).
Proof. reflexivity. Qed.

Lemma forAwait_completion cs interrupt cur w :
  completion (forAwait cs interrupt cur w) =
  match interrupt with
  | None => Normal (cur ++ streamedText cs)
  | Some e => Throw e
  end.
Proof.
  revert cur w. induction cs as [|c cs IH]; intros cur w.
  - rewrite forAwait_nil. unfold streamedText. simpl. now rewrite app_nil_r.
  - rewrite forAwait_cons. cbn [completion]. rewrite IH.
    unfold streamedText. simpl. now rewrite app_assoc.
Qed.

(** The loop writes [storyContent] and nothing else. *)
Lemma forAwait_final cs interrupt cur w :
  final (forAwait cs interrupt cur w) = withApp w (afterChunks cs cur (app w)).
Proof.
  revert cur w. induction cs as [|c cs IH]; intros cur w.
  - rewrite forAwait_nil. apply World_eta.
  - rewrite forAwait_cons. cbn [final]. rewrite IH.
    unfold withApp, afterChunks. cbn [app nanoCalls gatewayLog savedFiles].
    f_equal. unfold streamedText. destruct cs as [|c' cs]; simpl.
    + now rewrite app_nil_r.
    + rewrite set_storyContent_twice. now rewrite !app_assoc.
Qed.

(** Every state the loop exposes differs from the one it started in by
    [storyContent] at most. *)
Lemma forAwait_trace cs interrupt cur w :
  Forall (fun s => exists v, s = set_storyContent v (app w))
         (trace (forAwait cs interrupt cur w)).
Proof.
  revert cur w. induction cs as [|c cs IH]; intros cur w.
  - rewrite forAwait_nil. constructor; [|constructor].
    exists (storyContent (app w)). now destruct (app w).
  - rewrite forAwait_cons. cbn [trace]. constructor; [|constructor].
    + exists (storyContent (app w)). now destruct (app w).
    + now exists (cur ++ text c).
    + specialize (IH (cur ++ text c) (withApp w (set_storyContent (cur ++ text c) (app w)))).
      eapply Forall_impl; [|exact IH].
      cbn. intros s [v ->]. now exists v.
Qed.

(* ===================================================================== *)
(** ** Runs of the streaming continuation *)
(* ===================================================================== *)

Section ContinueWriting.

Variable generateContentStream : list GatewayCall -> jsstring -> Completion Stream.
Variable nanoidValue : nat -> jsstring.

Lemma handleContinueWriting_busy w :
  isAiResponding (app w) = true ->
  handleContinueWriting generateContentStream nanoidValue w = mkRun (Normal tt) w [].
Proof.
  intros H. unfold handleContinueWriting, bind, captured.
  cbn [completion final trace]. rewrite H. reflexivity.
Qed.

(** The [try]/[catch]/[finally] statement of the handler, when the
    stream opens. *)
Lemma continuation_try_opened w2 thinkingId content stream :
  generateContentStream (gatewayLog w2) (streamContents content) = Normal stream ->
  let w3 := mkWorld (app w2) (nanoCalls w2)
              (gatewayLog w2 ++ [GenerateContentStream (streamContents content)])
              (savedFiles w2) in
  let loop := forAwait (chunks stream) (interruption stream)
                (initialCurrentContent content) w3 in
  tryCatchFinally
    (stream <- continueWritingStream generateContentStream content ;;
     let currentContent := initialCurrentContent content in
     forAwait (chunks stream) (interruption stream) currentContent ;;
     setChatHistory (discardTurn thinkingId))
    (fun e =>
       let errorContent := js "An error occurred while streaming: " ++ message e in
       setChatHistory (resolveTurn thinkingId errorContent))
    (setIsAiResponding false) w2
  = mkRun (Normal tt)
      (withApp (final loop) (settled thinkingId (interruption stream) (app (final loop))))
      (app w2 :: trace loop
       ++ [resolving thinkingId (interruption stream) (app (final loop));
           settled thinkingId (interruption stream) (app (final loop))]).
Proof.
  intros G. cbv zeta.
  unfold tryCatchFinally, bind.
  cbn [continueWritingStream completion final trace]. rewrite G.
  cbn [completion final trace]. rewrite forAwait_completion.
  destruct (interruption stream) as [e|];
    cbn [completion final trace setIsAiResponding setChatHistory setState
         app nanoCalls gatewayLog savedFiles withApp];
    unfold settled, resolving, settledHistory; cbn [app List.app];
    rewrite <- ?app_assoc; reflexivity.
Qed.

(** The same statement when the stream cannot be opened. *)
Lemma continuation_try_refused w2 thinkingId content e :
  generateContentStream (gatewayLog w2) (streamContents content) = Throw e ->
  let w3 := mkWorld (app w2) (nanoCalls w2)
              (gatewayLog w2 ++ [GenerateContentStream (streamContents content)])
              (savedFiles w2) in
  tryCatchFinally
    (stream <- continueWritingStream generateContentStream content ;;
     let currentContent := initialCurrentContent content in
     forAwait (chunks stream) (interruption stream) currentContent ;;
     setChatHistory (discardTurn thinkingId))
    (fun e =>
       let errorContent := js "An error occurred while streaming: " ++ message e in
       setChatHistory (resolveTurn thinkingId errorContent))
    (setIsAiResponding false) w2
  = mkRun (Normal tt)
      (withApp w3 (settled thinkingId (Some e) (app w2)))
      [app w2; resolving thinkingId (Some e) (app w2);
       settled thinkingId (Some e) (app w2)].
Proof.
  intros G. cbv zeta.
  unfold tryCatchFinally, bind.
  cbn [continueWritingStream completion final trace]. rewrite G.
  reflexivity.
Qed.

(** The prologue of an accepted continuation, up to the [try]. *)
Lemma handleContinueWriting_accepted w :
  isAiResponding (app w) = false ->
  let thinkingId := nanoidValue (nanoCalls w) in
  let w2 := mkWorld (requesting thinkingId (app w)) (S (nanoCalls w))
              (gatewayLog w) (savedFiles w) in
  exists r,
    r = tryCatchFinally
          (stream <- continueWritingStream generateContentStream (storyContent (app w)) ;;
           let currentContent := initialCurrentContent (storyContent (app w)) in
           forAwait (chunks stream) (interruption stream) currentContent ;;
           setChatHistory (discardTurn thinkingId))
          (fun e =>
             let errorContent := js "An error occurred while streaming: " ++ message e in
             setChatHistory (resolveTurn thinkingId errorContent))
          (setIsAiResponding false) w2
    /\ handleContinueWriting generateContentStream nanoidValue w = mkRun (completion r) (final r)
                 (set_isAiResponding true (app w) :: requesting thinkingId (app w)
                  :: trace r).
Proof.
  intros H. cbv zeta. eexists. split; [reflexivity|].
  unfold handleContinueWriting, bind at 1, captured.
  cbn [completion final trace]. rewrite H.
  reflexivity.
Qed.

(** An accepted continuation whose stream opens: the run in closed
    form, in terms of the run of the loop. *)
Lemma handleContinueWriting_opened w stream :
  isAiResponding (app w) = false ->
  generateContentStream (gatewayLog w) (streamContents (storyContent (app w)))
    = Normal stream ->
  let thinkingId := nanoidValue (nanoCalls w) in
  let s2 := requesting thinkingId (app w) in
  let w3 := mkWorld s2 (S (nanoCalls w))
              (gatewayLog w ++ [GenerateContentStream (streamContents (storyContent (app w)))])
              (savedFiles w) in
  let loop := forAwait (chunks stream) (interruption stream)
                (initialCurrentContent (storyContent (app w))) w3 in
  let s3 := afterChunks (chunks stream) (initialCurrentContent (storyContent (app w))) s2 in
  handleContinueWriting generateContentStream nanoidValue w = mkRun (Normal tt)
            (withApp w3 (settled thinkingId (interruption stream) s3))
            (set_isAiResponding true (app w) :: s2 :: s2 :: trace loop
             ++ [resolving thinkingId (interruption stream) s3;
                 settled thinkingId (interruption stream) s3]).
Proof.
  intros H G. cbv zeta.
  destruct (handleContinueWriting_accepted w H) as [r [-> E]]. rewrite E.
  rewrite (continuation_try_opened
             (mkWorld (requesting (nanoidValue (nanoCalls w)) (app w))
                      (S (nanoCalls w)) (gatewayLog w) (savedFiles w))
             (nanoidValue (nanoCalls w)) (storyContent (app w)) G).
  cbn [completion final trace app nanoCalls gatewayLog savedFiles].
  rewrite forAwait_final. reflexivity.
Qed.

(** An accepted continuation whose stream cannot be opened. *)
Lemma handleContinueWriting_refused w e :
  isAiResponding (app w) = false ->
  generateContentStream (gatewayLog w) (streamContents (storyContent (app w)))
    = Throw e ->
  let thinkingId := nanoidValue (nanoCalls w) in
  let s2 := requesting thinkingId (app w) in
  let w3 := mkWorld s2 (S (nanoCalls w))
              (gatewayLog w ++ [GenerateContentStream (streamContents (storyContent (app w)))])
              (savedFiles w) in
  handleContinueWriting generateContentStream nanoidValue w = mkRun (Normal tt)
            (withApp w3 (settled thinkingId (Some e) s2))
            [set_isAiResponding true (app w); s2; s2;
             resolving thinkingId (Some e) s2; settled thinkingId (Some e) s2].
Proof.
  intros H G. cbv zeta.
  destruct (handleContinueWriting_accepted w H) as [r [-> E]]. rewrite E.
  rewrite (continuation_try_refused
             (mkWorld (requesting (nanoidValue (nanoCalls w)) (app w))
                      (S (nanoCalls w)) (gatewayLog w) (savedFiles w))
             (nanoidValue (nanoCalls w)) (storyContent (app w)) G).
  reflexivity.
Qed.

End ContinueWriting.

(* ===================================================================== *)
(** ** Runs of a turn orchestration *)
(* ===================================================================== *)

Section SendMessage.

Variable chatSession : list GatewayCall -> jsstring -> Completion jsstring.
Variable nanoidValue : nat -> jsstring.

Lemma handleSendMessage_run w prompt hiddenPrompt :
  let thinkingId := nanoidValue (nanoCalls w) in
  let userTurn := userTurnOf (nanoidValue (S (nanoCalls w))) prompt in
  let fullPrompt := JsString.orOptional hiddenPrompt prompt in
  let s1 := set_isAiResponding true (app w) in
  let s2 := set_chatHistory (chatHistory (app w) ++ userTurn ++ [thinkingTurn thinkingId]) s1 in
  let s3 := set_chatHistory
              (resolveTurn thinkingId
                 (resolutionText (chatSession (gatewayLog w) fullPrompt))
                 (chatHistory s2)) s2 in
  handleSendMessage chatSession nanoidValue prompt hiddenPrompt w =
  mkRun (Normal tt)
    (mkWorld (set_isAiResponding false s3)
       (length userTurn + S (nanoCalls w))
       (gatewayLog w ++ [SendMessage fullPrompt]) (savedFiles w))
    [s1; s2; s2; s3; set_isAiResponding false s3].
Proof.
  cbv zeta. unfold handleSendMessage, userTurnOf, tryCatchFinally, bind.
  destruct (JsString.truthy prompt);
    cbn [nanoid sendMessage ret completion final trace setIsAiResponding
         setChatHistory setState app nanoCalls gatewayLog savedFiles withApp];
    destruct (chatSession (gatewayLog w) (JsString.orOptional hiddenPrompt prompt));
    reflexivity.
Qed.

End SendMessage.

(* ===================================================================== *)
(** ** Properties of the specification *)
(* ===================================================================== *)

Lemma orchestrationInterval_snoc (inflight : list AppState) (s : AppState) :
  inflight <> [] ->
  Forall (fun s => isAiResponding s = true) inflight ->
  isAiResponding s = false ->
  orchestrationInterval (inflight ++ [s]).
Proof. intros. exists inflight, s. auto. Qed.

Lemma afterChunks_isAiResponding cs cur s :
  isAiResponding (afterChunks cs cur s) = isAiResponding s.
Proof. destruct cs; reflexivity. Qed.

Lemma afterChunks_chatHistory cs cur s :
  chatHistory (afterChunks cs cur s) = chatHistory s.
Proof. destruct cs; reflexivity. Qed.

Lemma afterChunks_storyContent cs cur s :
  cs <> [] -> storyContent (afterChunks cs cur s) = cur ++ streamedText cs.
Proof. destruct cs; [congruence|reflexivity]. Qed.

Lemma resolveTurn_length tid c prev : length (resolveTurn tid c prev) = length prev.
Proof. apply length_map. Qed.

(** Resolving the placeholder that sits at the end of the ledger. *)
Lemma resolveTurn_last tid c prev r t :
  nth_error (resolveTurn tid c (prev ++ [mkChatMessage tid r t (Some true)]))
            (length prev)
  = Some (mkChatMessage tid r c (Some false)).
Proof.
  unfold resolveTurn. rewrite nth_error_map, nth_error_app2, Nat.sub_diag by lia.
  simpl. now rewrite JsStringFacts.eqb_refl.
Qed.

Lemma discardTurn_last tid prev r t th :
  discardTurn tid (prev ++ [mkChatMessage tid r t th]) = discardTurn tid prev.
Proof.
  unfold discardTurn. rewrite filter_app. simpl.
  rewrite JsStringFacts.eqb_refl. simpl. apply app_nil_r.
Qed.

Lemma discardTurn_fresh tid prev :
  ~ In tid (map id prev) -> discardTurn tid prev = prev.
Proof.
  unfold discardTurn. induction prev as [|m prev IH]; simpl; intros H; [reflexivity|].
  destruct (JsString.eqb (id m) tid) eqn:E.
  - apply JsStringFacts.eqb_eq in E. tauto.
  - simpl. f_equal. apply IH. tauto.
Qed.

Lemma discardTurn_absent tid prev :
  Forall (fun m => id m <> tid) (discardTurn tid prev).
Proof.
  apply Forall_forall. intros m H. apply filter_In in H as [_ H].
  apply negb_true_iff, JsStringFacts.eqb_neq in H. exact H.
Qed.

(** *** The actions that delegate to [handleSendMessage] *)

Lemma bind_captured {A} (f : AppState -> M A) (w : World) :
  bind captured f w = f (app w) w.
Proof.
  unfold bind, captured. cbn [completion final trace].
  destruct (f (app w) w); reflexivity.
Qed.

(** The title, character and plot-twist actions are turn orchestrations
    with an empty visible prompt and a hidden one; so are Improve and the
    language choice when the selection has text. *)
Lemma actions_delegate chatSession nanoidValue w :
  handleSuggestTitles chatSession nanoidValue w
    = handleSendMessage chatSession nanoidValue []
        (Some (js "Based on the following story, suggest 5 creative titles. Story: "
               ++ JsString.dquote ++ storyContent (app w) ++ JsString.dquote)) w
  /\ handleSuggestPlotTwist chatSession nanoidValue w
    = handleSendMessage chatSession nanoidValue []
        (Some (js "Based on the following story, suggest one surprising plot twist. Story: "
               ++ JsString.dquote ++ storyContent (app w) ++ JsString.dquote)) w
  /\ (JsString.blank (selectedText (app w)) = false ->
      handleImproveWriting chatSession nanoidValue w
        = handleSendMessage chatSession nanoidValue []
            (Some (js "Rewrite the following text to be more vivid and engaging, improving the prose without adding new plot points. Text: "
                   ++ JsString.dquote ++ selectedText (app w) ++ JsString.dquote)) w)
  /\ (JsString.blank (selectedText (app w)) = false ->
      forall language,
        handleLanguageSelect chatSession nanoidValue language w
        = handleSendMessage chatSession nanoidValue []
            (Some (js "Translate the following text into " ++ language
                   ++ js ". Only return the translated text. Text: "
                   ++ JsString.dquote ++ selectedText (app w) ++ JsString.dquote)) w).
Proof.
  unfold handleSuggestTitles, handleSuggestPlotTwist, handleImproveWriting,
    handleLanguageSelect.
  rewrite !bind_captured, JsStringFacts.not_truthy_trim.
  repeat split; try reflexivity.
  - intros ->. reflexivity.
  - intros H language. rewrite bind_captured, JsStringFacts.not_truthy_trim, H.
    reflexivity.
Qed.

(** *** C1: the append boundary of the streaming continuation *)

(** C1 (as amended). An accepted streaming continuation whose stream
    delivers at least one increment and then ends leaves in DocumentContent
    the initial content, one U+0020 exactly when the initial content is not
    empty and does not end in U+0020, and then the increments in order. *)
Theorem continuation_appends_after_separator :
  forall generateContentStream nanoidValue w cs,
    isAiResponding (app w) = false ->
    generateContentStream (gatewayLog w) (streamContents (storyContent (app w)))
      = Normal (mkStream cs None) ->
    cs <> [] ->
    let s := storyContent (app w) in
    let r := handleContinueWriting generateContentStream nanoidValue w in
    ((s <> [] /\ ~ (exists s', s = s' ++ js " ")) ->
       storyContent (app (final r)) = s ++ js " " ++ streamedText cs)
    /\ ((s = [] \/ exists s', s = s' ++ js " ") ->
       storyContent (app (final r)) = s ++ streamedText cs).
Proof.
  intros gen nano w cs H G Hcs s r. subst r.
  rewrite (handleContinueWriting_opened gen nano w H G).
  cbn [final app withApp chunks interruption].
  unfold settled, resolving.
  change (storyContent (set_isAiResponding false ?x)) with (storyContent x).
  cbn [set_isAiResponding set_chatHistory storyContent].
  rewrite afterChunks_storyContent by exact Hcs.
  fold s. unfold initialCurrentContent. fold s.
  split.
  - intros [Hne Hsp].
    destruct (JsString.endsWith s (js " ")) eqn:E.
    + apply JsStringFacts.endsWith_space in E. contradiction.
    + destruct s; [congruence|]. cbn [negb andb Nat.ltb Nat.leb length].
      now rewrite <- app_assoc.
  - intros [He | Hsp].
    + rewrite He. reflexivity.
    + apply JsStringFacts.endsWith_space in Hsp. rewrite Hsp.
      now rewrite andb_false_r.
Qed.

(** The example of the specification: after ["Once upon a time"], the
    increments [","], [" a hero"], [" rose."] give a space before the
    comma. *)
Lemma continuation_appends_after_separator_witness :
  storyContent (app (final (handleContinueWriting (streamOf heroChunks None) nanoidSeq
                              (idleWorld (js "Once upon a time") []))))
  = js "Once upon a time , a hero rose.".
Proof.
  refine (proj1 (continuation_appends_after_separator
                   (streamOf heroChunks None) nanoidSeq
                   (idleWorld (js "Once upon a time") []) (cs := heroChunks)
                   eq_refl eq_refl _) _).
  - discriminate.
  - split; [discriminate|].
    intros [s' E].
    pose proof (proj2 (JsStringFacts.endsWith_space _) (ex_intro _ s' E)) as F.
    vm_compute in F. discriminate.
Defined.

(** C1 as stated fails: the final content of the example is not
    ["Once upon a time, a hero rose."]. *)
Lemma continuation_example_has_space_before_comma :
  storyContent (app (final (handleContinueWriting (streamOf heroChunks None) nanoidSeq
                              (idleWorld (js "Once upon a time") []))))
  <> js "Once upon a time, a hero rose.".
Proof. vm_compute. discriminate. Qed.

(** A content that ends in a line feed, which is white space, still gets
    the separating space. *)
Example continuation_after_line_feed :
  initialCurrentContent (js "Chapter one." ++ [10%N])
  = js "Chapter one." ++ [10%N] ++ js " ".
Proof. reflexivity. Qed.

(** *** C2: the entry guard *)

(** The streaming continuation is gated: requested while
    [isAiResponding] is set, it makes no request, exposes no state and
    leaves the world as it was. *)
Lemma continuation_dropped_while_responding :
  forall generateContentStream nanoidValue w,
    isAiResponding (app w) = true ->
    handleContinueWriting generateContentStream nanoidValue w = mkRun (Normal tt) w [].
Proof. intros. now apply handleContinueWriting_busy. Qed.

(** C2. [handleSendMessage] has no entry guard: in every state, the
    one with [isAiResponding] set included, it sends the effective prompt
    to the backend, lengthens the ledger and leaves [isAiResponding]
    cleared.  In [busyWorld], where an orchestration is in flight (the flag
    is set, its placeholder is in the ledger), the message ["hi"] reaches the
    backend, a user turn and a resolved assistant turn are added after the
    placeholder, which is still provisional, and the flag is left cleared;
    the streaming continuation requested in the same state is dropped. *)
Theorem send_message_runs_while_responding :
  (forall chatSession nanoidValue w prompt hiddenPrompt,
     let r := handleSendMessage chatSession nanoidValue prompt hiddenPrompt w in
     gatewayLog (final r)
       = gatewayLog w ++ [SendMessage (JsString.orOptional hiddenPrompt prompt)]
     /\ length (chatHistory (app (final r)))
        = length (chatHistory (app w))
          + length (userTurnOf (nanoidValue (S (nanoCalls w))) prompt) + 1
     /\ isAiResponding (app (final r)) = false)
  /\ (let r := handleSendMessage chatEcho nanoidSeq (js "hi") None busyWorld in
      isAiResponding (app busyWorld) = true
      /\ gatewayLog (final r) = gatewayLog busyWorld ++ [SendMessage (js "hi")]
      /\ chatHistory (app (final r))
         = [mkChatMessage (js "t0") model (js "Thinking...") (Some true);
            mkChatMessage (nanoidSeq 2) user (js "hi") None;
            mkChatMessage (nanoidSeq 1) model (js "hi") (Some false)]
      /\ isAiResponding (app (final r)) = false
      /\ handleContinueWriting (streamOf heroChunks None) nanoidSeq busyWorld
         = mkRun (Normal tt) busyWorld []).
Proof.
  split.
  - intros chat nano w prompt hidden r. subst r.
    rewrite handleSendMessage_run. cbn [final gatewayLog app].
    split; [reflexivity|]. split; [|reflexivity].
    change (chatHistory (set_isAiResponding false ?x)) with (chatHistory x).
    cbn [set_chatHistory chatHistory].
    rewrite resolveTurn_length, !length_app. simpl. lia.
  - vm_compute. repeat split.
Qed.

(** *** C3: [isAiResponding] over the life of an orchestration *)

(** An orchestration on its own.  Whatever the backend does (it answers,
    it fails, the stream cannot be opened, the stream is interrupted after
    any number of increments), a turn orchestration and an accepted
    streaming continuation complete normally, and the states they expose
    from their call to their return form an orchestration interval:
    [isAiResponding] is set from the first state on, stays set in every
    state before the last, and is cleared in the last, which is the state
    the handler leaves.  Nothing is said here of a handler that another
    one overlaps. *)
Theorem responding_until_resolution :
  forall chatSession generateContentStream nanoidValue w,
    (forall prompt hiddenPrompt,
       let r := handleSendMessage chatSession nanoidValue prompt hiddenPrompt w in
       completion r = Normal tt
       /\ orchestrationInterval (trace r)
       /\ last (trace r) (app w) = app (final r)
       /\ isAiResponding (app (final r)) = false)
    /\ (isAiResponding (app w) = false ->
        let r := handleContinueWriting generateContentStream nanoidValue w in
        completion r = Normal tt
        /\ orchestrationInterval (trace r)
        /\ last (trace r) (app w) = app (final r)
        /\ isAiResponding (app (final r)) = false).
Proof.
  intros chat gen nano w. split.
  - intros prompt hidden r. subst r. rewrite handleSendMessage_run.
    cbn [completion trace final app].
    repeat split.
    match goal with
    | |- orchestrationInterval [?a; ?b; ?c; ?d; ?e] =>
        apply (orchestrationInterval_snoc (inflight := [a; b; c; d]))
    end; [discriminate| repeat constructor | reflexivity].
  - intros H r. subst r.
    destruct (gen (gatewayLog w) (streamContents (storyContent (app w)))) as [stream|e] eqn:G.
    + rewrite (handleContinueWriting_opened gen nano w H G).
      cbn [completion trace final app withApp chunks interruption].
      set (tid := nano (nanoCalls w)).
      set (s2 := requesting tid (app w)).
      set (loop := forAwait _ _ _ _).
      set (s3 := afterChunks _ _ s2).
      assert (Hs3 : isAiResponding s3 = true).
      { unfold s3. now rewrite afterChunks_isAiResponding. }
      assert (Hloop : Forall (fun s => isAiResponding s = true) (trace loop)).
      { eapply Forall_impl; [|apply forAwait_trace].
        cbn [app]. intros s [v ->]. reflexivity. }
      replace (set_isAiResponding true (app w) :: s2 :: s2 :: trace loop
               ++ [resolving tid (interruption stream) s3;
                   settled tid (interruption stream) s3])
        with ((set_isAiResponding true (app w) :: s2 :: s2 :: trace loop
               ++ [resolving tid (interruption stream) s3])
              ++ [settled tid (interruption stream) s3])
        by (cbn [List.app]; now rewrite <- app_assoc).
      repeat split.
      * apply orchestrationInterval_snoc; [discriminate| |reflexivity].
        repeat constructor. apply Forall_app. split; [exact Hloop|].
        constructor; [exact Hs3|constructor].
      * apply last_last.
    + rewrite (handleContinueWriting_refused gen nano w H G).
      cbn [completion trace final app withApp].
      repeat split.
      match goal with
      | |- orchestrationInterval [?a; ?b; ?c; ?d; ?e] =>
          apply (orchestrationInterval_snoc (inflight := [a; b; c; d]))
      end; [discriminate| repeat constructor | reflexivity].
Qed.

(** The stream of the example, interrupted after its second increment:
    the flag is set throughout and cleared at the end. *)
Lemma responding_until_resolution_witness :
  let w := idleWorld (js "Once upon a time") [] in
  let r := handleContinueWriting
             (streamOf [mkChunk (js ","); mkChunk (js " a hero")] (Some quotaError))
             nanoidSeq w in
  completion r = Normal tt
  /\ orchestrationInterval (trace r)
  /\ last (trace r) (app w) = app (final r)
  /\ isAiResponding (app (final r)) = false.
Proof.
  exact (proj2 (responding_until_resolution chatEcho
                  (streamOf [mkChunk (js ","); mkChunk (js " a hero")] (Some quotaError))
                  nanoidSeq (idleWorld (js "Once upon a time") []))
               eq_refl).
Defined.

Lemma bind_normal {A B} (m : M A) (f : A -> M B) (w : World) (a : A) :
  completion (m w) = Normal a ->
  bind m f w
  = mkRun (completion (f a (final (m w)))) (final (f a (final (m w))))
      (trace (m w) ++ trace (f a (final (m w)))).
Proof. intros H. unfold bind. now rewrite H. Qed.

Lemma sendMessageUntilAwait_run nanoidValue w prompt hiddenPrompt :
  sendMessageUntilAwait nanoidValue prompt hiddenPrompt w
  = mkRun (Normal (nanoidValue (nanoCalls w)))
      (mkWorld
         (set_chatHistory
            (chatHistory (app w)
             ++ userTurnOf (nanoidValue (S (nanoCalls w))) prompt
             ++ [thinkingTurn (nanoidValue (nanoCalls w))])
            (set_isAiResponding true (app w)))
         (length (userTurnOf (nanoidValue (S (nanoCalls w))) prompt) + S (nanoCalls w))
         (gatewayLog w ++ [SendMessage (JsString.orOptional hiddenPrompt prompt)])
         (savedFiles w))
      [set_isAiResponding true (app w);
       set_chatHistory
         (chatHistory (app w)
          ++ userTurnOf (nanoidValue (S (nanoCalls w))) prompt
          ++ [thinkingTurn (nanoidValue (nanoCalls w))])
         (set_isAiResponding true (app w));
       set_chatHistory
         (chatHistory (app w)
          ++ userTurnOf (nanoidValue (S (nanoCalls w))) prompt
          ++ [thinkingTurn (nanoidValue (nanoCalls w))])
         (set_isAiResponding true (app w))].
Proof.
  unfold sendMessageUntilAwait, userTurnOf.
  destruct (JsString.truthy prompt); reflexivity.
Qed.

Lemma sendMessageFromAwait_run thinkingId reply w :
  sendMessageFromAwait thinkingId reply w
  = mkRun (Normal tt)
      (withApp w
         (set_isAiResponding false
            (set_chatHistory
               (resolveTurn thinkingId (resolutionText reply) (chatHistory (app w)))
               (app w))))
      [set_chatHistory
         (resolveTurn thinkingId (resolutionText reply) (chatHistory (app w))) (app w);
       set_isAiResponding false
         (set_chatHistory
            (resolveTurn thinkingId (resolutionText reply) (chatHistory (app w)))
            (app w))].
Proof. destruct reply; reflexivity. Qed.

(** [handleSendMessage] is its part before the [await] followed by its
    part after it, on the reply of the backend to the request. *)
Lemma handleSendMessage_around_await chatSession nanoidValue w prompt hiddenPrompt :
  handleSendMessage chatSession nanoidValue prompt hiddenPrompt w
  = bind (sendMessageUntilAwait nanoidValue prompt hiddenPrompt)
      (fun thinkingId =>
         sendMessageFromAwait thinkingId
           (chatSession (gatewayLog w) (JsString.orOptional hiddenPrompt prompt))) w.
Proof.
  rewrite handleSendMessage_run. cbv zeta.
  unfold bind. rewrite sendMessageUntilAwait_run.
  cbn [completion final trace]. rewrite sendMessageFromAwait_run.
  reflexivity.
Qed.

(** Two overlapping turn orchestrations, in closed form. *)
Lemma overlappingTurns_run nanoidValue w first second replyToSecond replyToFirst :
  let r := overlappingTurns nanoidValue first second replyToSecond replyToFirst w in
  exists w3 w4,
    completion r = Normal (app w3)
    /\ final r = w4
    /\ isAiResponding (app w3) = false
    /\ gatewayLog w4 = gatewayLog w ++ [SendMessage first; SendMessage second].
Proof.
  cbv zeta. unfold overlappingTurns.
  set (a := nanoidValue (nanoCalls w)).
  set (w1 := final (sendMessageUntilAwait nanoidValue first None w)).
  set (b := nanoidValue (nanoCalls w1)).
  set (w2 := final (sendMessageUntilAwait nanoidValue second None w1)).
  set (w3 := final (sendMessageFromAwait b replyToSecond w2)).
  set (w4 := final (sendMessageFromAwait a replyToFirst w3)).
  exists w3, w4.
  assert (Ca : completion (sendMessageUntilAwait nanoidValue first None w) = Normal a)
    by now rewrite sendMessageUntilAwait_run.
  assert (Cb : completion (sendMessageUntilAwait nanoidValue second None w1) = Normal b)
    by now rewrite sendMessageUntilAwait_run.
  assert (C3 : completion (sendMessageFromAwait b replyToSecond w2) = Normal tt)
    by now rewrite sendMessageFromAwait_run.
  assert (C4 : completion (sendMessageFromAwait a replyToFirst w3) = Normal tt)
    by now rewrite sendMessageFromAwait_run.
  rewrite (bind_normal _ _ w Ca). fold w1.
  rewrite (bind_normal _ _ w1 Cb). fold w2.
  rewrite (bind_normal _ _ w2 C3). fold w3.
  rewrite bind_captured.
  rewrite (bind_normal _ _ w3 C4). fold w4.
  cbn [ret completion final].
  split; [reflexivity|]. split; [reflexivity|]. split.
  - unfold w3. now rewrite sendMessageFromAwait_run.
  - unfold w4, w3, w2, w1.
    rewrite !sendMessageFromAwait_run, !sendMessageUntilAwait_run.
    cbn [final withApp gatewayLog JsString.orOptional]. now rewrite <- app_assoc.
Qed.

(** C3. The flag does not stay set over the whole interval of every
    orchestration.  When a second message is sent while the first awaits
    the backend, both requests leave (there is no entry guard, see C2), and
    the [finally] block of the one that resolves first clears
    [isAiResponding] whatever the replies are.  On a fresh session with two
    messages answered in the reverse order, the states exposed have the
    flag set seven times and then cleared three times: it is cleared from
    the resolution of the second message on, while the placeholder of the
    first is still provisional in the ledger, and the first is resolved
    only afterwards. *)
Theorem overlapping_turn_clears_flag_early :
  (forall nanoidValue w first second replyToSecond replyToFirst,
     let r := overlappingTurns nanoidValue first second replyToSecond replyToFirst w in
     exists between,
       completion r = Normal between
       /\ isAiResponding between = false
       /\ gatewayLog (final r)
          = gatewayLog w ++ [SendMessage first; SendMessage second])
  /\ (let r := overlappingTurns nanoidSeq (js "first") (js "second")
                 (Normal (js "answer two")) (Normal (js "answer one"))
                 (idleWorld [] []) in
      map isAiResponding (trace r)
        = [true; true; true; true; true; true; true; false; false; false]
      /\ (exists between,
            completion r = Normal between
            /\ isAiResponding between = false
            /\ chatHistory between
               = [mkChatMessage (nanoidSeq 1) user (js "first") None;
                  mkChatMessage (nanoidSeq 0) model (js "Thinking...") (Some true);
                  mkChatMessage (nanoidSeq 3) user (js "second") None;
                  mkChatMessage (nanoidSeq 2) model (js "answer two") (Some false)])
      /\ chatHistory (app (final r))
         = [mkChatMessage (nanoidSeq 1) user (js "first") None;
            mkChatMessage (nanoidSeq 0) model (js "answer one") (Some false);
            mkChatMessage (nanoidSeq 3) user (js "second") None;
            mkChatMessage (nanoidSeq 2) model (js "answer two") (Some false)]).
Proof.
  split.
  - intros nano w first second replyB replyA r. subst r.
    destruct (overlappingTurns_run nano w first second replyB replyA)
      as (w3 & w4 & C & F & B & G).
    exists (app w3). rewrite F. auto.
  - vm_compute. split; [reflexivity|]. split; [|reflexivity].
    eexists. repeat split.
Qed.

(** *** C4: a failed turn orchestration *)

(** C4. When the backend call of a turn orchestration throws, the
    handler completes normally; the ledger is as long as it was when the
    backend was called; and the turn at the position where the placeholder
    was appended keeps the placeholder's id and role, is no longer
    provisional, and has for content the marker ["An error occurred"]
    followed by [": "] and the message of the failure. *)
Theorem failed_turn_resolved_in_place :
  forall chatSession nanoidValue w prompt hiddenPrompt e,
    chatSession (gatewayLog w) (JsString.orOptional hiddenPrompt prompt) = Throw e ->
    let r := handleSendMessage chatSession nanoidValue prompt hiddenPrompt w in
    let thinkingId := nanoidValue (nanoCalls w) in
    let before := chatHistory (app w) ++ userTurnOf (nanoidValue (S (nanoCalls w))) prompt in
    completion r = Normal tt
    /\ (exists s, nth_error (trace r) 1 = Some s
                  /\ chatHistory s = before ++ [thinkingTurn thinkingId])
    /\ length (chatHistory (app (final r))) = length (before ++ [thinkingTurn thinkingId])
    /\ nth_error (chatHistory (app (final r))) (length before)
       = Some (mkChatMessage thinkingId model
                 (js "An error occurred" ++ js ": " ++ message e) (Some false)).
Proof.
  intros chat nano w prompt hidden e G r tid before. subst r.
  rewrite handleSendMessage_run. rewrite G.
  cbn [completion trace final app nth_error resolutionText].
  change (chatHistory (set_isAiResponding false ?x)) with (chatHistory x).
  cbn [set_chatHistory chatHistory].
  rewrite (app_assoc (chatHistory (app w))). fold before. fold tid.
  split; [reflexivity|]. split; [|split].
  - eexists. split; reflexivity.
  - apply resolveTurn_length.
  - apply resolveTurn_last.
Qed.

Lemma failed_turn_resolved_in_place_witness :
  let r := handleSendMessage (chatDown quotaError) nanoidSeq (js "hi") None
             (idleWorld [] []) in
  completion r = Normal tt
  /\ (exists s, nth_error (trace r) 1 = Some s
                /\ chatHistory s
                   = [mkChatMessage (nanoidSeq 1) user (js "hi") None;
                      thinkingTurn (nanoidSeq 0)])
  /\ length (chatHistory (app (final r))) = 2
  /\ nth_error (chatHistory (app (final r))) 1
     = Some (mkChatMessage (nanoidSeq 0) model
               (js "An error occurred: quota exceeded") (Some false)).
Proof.
  exact (failed_turn_resolved_in_place (chatDown quotaError) nanoidSeq
           (idleWorld [] []) (js "hi") None (e := quotaError) eq_refl).
Defined.

(** *** C5: a continuation that fails mid-stream *)

(** C5. When the stream of an accepted continuation is interrupted
    after delivering at least one increment, the handler completes
    normally; DocumentContent holds the initial content, the separator and
    every increment delivered; and the placeholder, at the position where
    it was appended, keeps its id and role, is no longer provisional, and
    has for content the marker ["An error occurred"] followed by
    [" while streaming: "] and the message of the failure. *)
Theorem interrupted_stream_keeps_partial_content :
  forall generateContentStream nanoidValue w cs e,
    isAiResponding (app w) = false ->
    generateContentStream (gatewayLog w) (streamContents (storyContent (app w)))
      = Normal (mkStream cs (Some e)) ->
    cs <> [] ->
    let r := handleContinueWriting generateContentStream nanoidValue w in
    let thinkingId := nanoidValue (nanoCalls w) in
    completion r = Normal tt
    /\ storyContent (app (final r))
       = initialCurrentContent (storyContent (app w)) ++ streamedText cs
    /\ length (chatHistory (app (final r))) = length (chatHistory (app w)) + 1
    /\ nth_error (chatHistory (app (final r))) (length (chatHistory (app w)))
       = Some (mkChatMessage thinkingId model
                 (js "An error occurred" ++ js " while streaming: " ++ message e)
                 (Some false)).
Proof.
  intros gen nano w cs e H G Hcs r tid. subst r.
  rewrite (handleContinueWriting_opened gen nano w H G).
  cbn [completion final app withApp chunks interruption].
  unfold settled, resolving, settledHistory.
  change (storyContent (set_isAiResponding false ?x)) with (storyContent x).
  change (chatHistory (set_isAiResponding false ?x)) with (chatHistory x).
  cbn [set_chatHistory storyContent chatHistory].
  rewrite afterChunks_storyContent, afterChunks_chatHistory by exact Hcs.
  unfold requesting. cbn [set_chatHistory chatHistory]. fold tid.
  split; [reflexivity|]. split; [reflexivity|]. split.
  - rewrite resolveTurn_length, length_app. reflexivity.
  - apply resolveTurn_last.
Qed.

Lemma interrupted_stream_keeps_partial_content_witness :
  let r := handleContinueWriting
             (streamOf [mkChunk (js ","); mkChunk (js " a hero")] (Some quotaError))
             nanoidSeq (idleWorld (js "Once upon a time") []) in
  completion r = Normal tt
  /\ storyContent (app (final r)) = js "Once upon a time , a hero"
  /\ length (chatHistory (app (final r))) = 1
  /\ nth_error (chatHistory (app (final r))) 0
     = Some (mkChatMessage (nanoidSeq 0) model
               (js "An error occurred while streaming: quota exceeded") (Some false)).
Proof.
  refine (interrupted_stream_keeps_partial_content
            (streamOf [mkChunk (js ","); mkChunk (js " a hero")] (Some quotaError))
            nanoidSeq (idleWorld (js "Once upon a time") [])
            (cs := [mkChunk (js ","); mkChunk (js " a hero")]) (e := quotaError)
            eq_refl eq_refl _).
  discriminate.
Defined.

(** *** C6: the placeholder of a completed continuation *)

(** C6. When the stream of an accepted continuation ends, the ledger
    the handler leaves is the initial ledger without the turns that carry
    the placeholder's id: no turn with that id is left, the turns with
    another id are kept as they were and in their order, and when the id
    is fresh the ledger is the initial one. *)
Theorem completed_stream_discards_placeholder :
  forall generateContentStream nanoidValue w cs,
    isAiResponding (app w) = false ->
    generateContentStream (gatewayLog w) (streamContents (storyContent (app w)))
      = Normal (mkStream cs None) ->
    let r := handleContinueWriting generateContentStream nanoidValue w in
    let thinkingId := nanoidValue (nanoCalls w) in
    (exists s, nth_error (trace r) 1 = Some s
               /\ chatHistory s = chatHistory (app w) ++ [continuingTurn thinkingId])
    /\ Forall (fun m => id m <> thinkingId) (chatHistory (app (final r)))
    /\ chatHistory (app (final r))
       = filter (fun m => negb (JsString.eqb (id m) thinkingId)) (chatHistory (app w))
    /\ (~ In thinkingId (map id (chatHistory (app w))) ->
        chatHistory (app (final r)) = chatHistory (app w)).
Proof.
  intros gen nano w cs H G r tid. subst r.
  rewrite (handleContinueWriting_opened gen nano w H G).
  cbn [trace nth_error final app withApp chunks interruption].
  unfold settled, resolving, settledHistory.
  change (chatHistory (set_isAiResponding false ?x)) with (chatHistory x).
  cbn [set_chatHistory chatHistory].
  rewrite afterChunks_chatHistory.
  unfold requesting. cbn [set_chatHistory chatHistory]. fold tid.
  unfold continuingTurn. rewrite discardTurn_last.
  split; [eexists; split; reflexivity|]. split; [|split].
  - apply discardTurn_absent.
  - reflexivity.
  - apply discardTurn_fresh.
Qed.

Lemma completed_stream_discards_placeholder_witness :
  let w := mkWorld (mkAppState dark false (js "Once upon a time") [] false
                      [mkChatMessage (js "welcome-id") system (js "welcome") None] false)
                   0 [] [] in
  let r := handleContinueWriting (streamOf heroChunks None) nanoidSeq w in
  (exists s, nth_error (trace r) 1 = Some s
             /\ chatHistory s = chatHistory (app w) ++ [continuingTurn (nanoidSeq 0)])
  /\ Forall (fun m => id m <> nanoidSeq 0) (chatHistory (app (final r)))
  /\ chatHistory (app (final r))
     = filter (fun m => negb (JsString.eqb (id m) (nanoidSeq 0))) (chatHistory (app w))
  /\ chatHistory (app (final r)) = chatHistory (app w).
Proof.
  intros w r.
  pose proof (completed_stream_discards_placeholder
                (streamOf heroChunks None) nanoidSeq w (cs := heroChunks)
                eq_refl eq_refl) as [T [A [F K]]].
  split; [exact T|]. split; [exact A|]. split; [exact F|].
  apply K. vm_compute. intros [E|[]]. discriminate.
Defined.

(** *** C7: Improve and Translate without a selection *)

Lemma addSystemMessage_advisoryOnly nanoidValue c w :
  advisoryOnly w (addSystemMessage nanoidValue c w).
Proof.
  unfold advisoryOnly. repeat (split; [reflexivity|]).
  exists (mkChatMessage (nanoidValue (nanoCalls w)) system c None).
  repeat split.
Qed.

(** C7. Invoked while the selection is empty or made of white space
    only, [handleImproveWriting] and [handleTranslate] do nothing but
    append their advisory: the run of each is the run that draws one id and
    ends the ledger with one system turn whose content is the advisory of
    that action (for Translate the request to select text, not the
    ['translate'] turn that opens the language picker); no request is made
    to the backend, no placeholder is appended, the one state exposed is
    the state left, and the flag [isAiResponding] is as it was. *)
Theorem blank_selection_appends_one_advisory :
  forall chatSession nanoidValue w,
    JsString.blank (selectedText (app w)) = true ->
    handleImproveWriting chatSession nanoidValue w
      = advisoryRun nanoidValue w
          (js "Please select some text in the editor to improve.")
    /\ handleTranslate nanoidValue w
       = advisoryRun nanoidValue w (js "Please select some text to translate.")
    /\ handleTranslate nanoidValue w <> advisoryRun nanoidValue w (js "translate")
    /\ advisoryOnly w (handleImproveWriting chatSession nanoidValue w)
    /\ advisoryOnly w (handleTranslate nanoidValue w)
    /\ isAiResponding (app (final (handleImproveWriting chatSession nanoidValue w)))
       = isAiResponding (app w)
    /\ isAiResponding (app (final (handleTranslate nanoidValue w)))
       = isAiResponding (app w).
Proof.
  intros chat nano w H.
  assert (I : handleImproveWriting chat nano w
              = addSystemMessage nano
                  (js "Please select some text in the editor to improve.") w).
  { unfold handleImproveWriting, bind at 1, captured.
    cbn [completion final trace]. rewrite JsStringFacts.not_truthy_trim, H.
    reflexivity. }
  assert (T : handleTranslate nano w
              = addSystemMessage nano (js "Please select some text to translate.") w).
  { unfold handleTranslate, bind at 1, captured.
    cbn [completion final trace]. rewrite JsStringFacts.not_truthy_trim, H.
    reflexivity. }
  rewrite I, T.
  split; [reflexivity|]. split; [reflexivity|]. split.
  - intros E. apply (f_equal (fun r => chatHistory (app (final r)))) in E.
    cbn in E. apply app_inv_head in E. discriminate.
  - split; [apply addSystemMessage_advisoryOnly|].
    split; [apply addSystemMessage_advisoryOnly|].
    split; reflexivity.
Qed.

Lemma blank_selection_appends_one_advisory_witness :
  let w := idleWorld (js "Once upon a time") (js "  " ++ [10%N; 9%N]) in
  chatHistory (app (final (handleImproveWriting chatEcho nanoidSeq w)))
    = [mkChatMessage (nanoidSeq 0) system
         (js "Please select some text in the editor to improve.") None]
  /\ chatHistory (app (final (handleTranslate nanoidSeq w)))
     = [mkChatMessage (nanoidSeq 0) system
          (js "Please select some text to translate.") None]
  /\ gatewayLog (final (handleImproveWriting chatEcho nanoidSeq w)) = []
  /\ gatewayLog (final (handleTranslate nanoidSeq w)) = []
  /\ isAiResponding (app (final (handleImproveWriting chatEcho nanoidSeq w))) = false
  /\ isAiResponding (app (final (handleTranslate nanoidSeq w))) = false.
Proof.
  intros w.
  destruct (blank_selection_appends_one_advisory chatEcho nanoidSeq
              (idleWorld (js "Once upon a time") (js "  " ++ [10%N; 9%N])) eq_refl)
    as (I & T & _ & _ & _ & FI & FT).
  fold w in I, T, FI, FT.
  split; [now rewrite I|]. split; [now rewrite T|].
  split; [now rewrite I|]. split; [now rewrite T|].
  split; [exact FI|exact FT].
Defined.

(** *** C8: export of an empty manuscript *)

(** C8. An export requested while the manuscript is empty or made of
    white space only does nothing: the handler and the effect that follows
    it expose no state and leave the world as it was, so the exporting
    flag, the ledger and the saved files are unchanged. *)
Theorem blank_manuscript_export_is_noop :
  forall nanoidValue pdfRefCurrent html2canvas w,
    JsString.blank (storyContent (app w)) = true ->
    let r := exportRequest nanoidValue pdfRefCurrent html2canvas w in
    handleExportPdf w = mkRun (Normal tt) w []
    /\ r = mkRun (Normal tt) w []
    /\ isExportingPdf (app (final r)) = isExportingPdf (app w)
    /\ savedFiles (final r) = savedFiles w
    /\ chatHistory (app (final r)) = chatHistory (app w).
Proof.
  intros nano ref canvas w H r.
  assert (E : handleExportPdf w = mkRun (Normal tt) w []).
  { unfold handleExportPdf, bind, captured. cbn [completion final trace].
    rewrite <- (negb_involutive (JsString.truthy _)).
    rewrite JsStringFacts.not_truthy_trim, H. reflexivity. }
  assert (R : r = mkRun (Normal tt) w []).
  { subst r. unfold exportRequest, bind at 1 2, captured.
    cbn [completion final trace]. rewrite E.
    unfold afterRender, bind, captured.
    cbn [completion final trace]. rewrite Bool.eqb_reflx. reflexivity. }
  rewrite R. repeat split. exact E.
Qed.

Lemma blank_manuscript_export_is_noop_witness :
  let w := idleWorld (js " " ++ [10%N]) [] in
  let r := exportRequest nanoidSeq true (fun _ => Normal tt) w in
  handleExportPdf w = mkRun (Normal tt) w []
  /\ r = mkRun (Normal tt) w []
  /\ isExportingPdf (app (final r)) = false
  /\ savedFiles (final r) = []
  /\ chatHistory (app (final r)) = [].
Proof.
  exact (blank_manuscript_export_is_noop nanoidSeq true (fun _ => Normal tt)
           (idleWorld (js " " ++ [10%N]) []) eq_refl).
Defined.

(** An export of a manuscript with text does produce the artifact, once. *)
Example export_of_text_saves_one_file :
  savedFiles (final (exportRequest nanoidSeq true (fun _ => Normal tt)
                       (idleWorld (js "Once upon a time") [])))
  = [js "ai-story.pdf"].
Proof. reflexivity. Qed.

(** *** C9: the prompt of the streaming continuation *)

(** C9. [continueWritingStream] asks the backend with, and only with,
    the contents [streamContents storyContent]: the generic opening
    instruction when the manuscript is the empty string, the manuscript
    itself otherwise, and in no case the empty string. *)
Theorem stream_prompt_never_empty :
  streamContents [] = js "Start a new, intriguing story."
  /\ (forall c s, streamContents (c :: s) = c :: s)
  /\ (forall s, streamContents s <> [])
  /\ (forall generateContentStream s w,
        let r := continueWritingStream generateContentStream s w in
        completion r = generateContentStream (gatewayLog w) (streamContents s)
        /\ gatewayLog (final r)
           = gatewayLog w ++ [GenerateContentStream (streamContents s)]).
Proof.
  split; [reflexivity|]. split; [reflexivity|]. split.
  - intros s. apply JsStringFacts.or_nonempty. discriminate.
  - intros gen s w. split; reflexivity.
Qed.

(** *** C10: a language chosen without a selection *)

(** C10. [handleLanguageSelect], called while the selection is empty
    or made of white space only, returns at once: it makes no request,
    draws no id, exposes no state and leaves the world, the ledger
    included, as it was. *)
Theorem language_choice_without_selection_is_noop :
  forall chatSession nanoidValue language w,
    JsString.blank (selectedText (app w)) = true ->
    handleLanguageSelect chatSession nanoidValue language w = mkRun (Normal tt) w [].
Proof.
  intros chat nano language w H.
  unfold handleLanguageSelect, bind at 1, captured.
  cbn [completion final trace]. rewrite JsStringFacts.not_truthy_trim, H.
  reflexivity.
Qed.

Lemma language_choice_without_selection_is_noop_witness :
  handleLanguageSelect chatEcho nanoidSeq (js "French")
    (idleWorld (js "Once upon a time") (js "   "))
  = mkRun (Normal tt) (idleWorld (js "Once upon a time") (js "   ")) [].
Proof.
  exact (language_choice_without_selection_is_noop chatEcho nanoidSeq (js "French")
           (idleWorld (js "Once upon a time") (js "   ")) eq_refl).
Defined.

(* ===================================================================== *)
(** ** Further properties of the handlers *)
(* ===================================================================== *)

(** *** The ledger under resolution and discard *)

Lemma resolveTurn_ids tid c prev : map id (resolveTurn tid c prev) = map id prev.
Proof.
  unfold resolveTurn. rewrite map_map. apply map_ext.
  intros m. now destruct (JsString.eqb (id m) tid).
Qed.

Lemma resolveTurn_roles tid c prev : map role (resolveTurn tid c prev) = map role prev.
Proof.
  unfold resolveTurn. rewrite map_map. apply map_ext.
  intros m. now destruct (JsString.eqb (id m) tid).
Qed.

Lemma resolveTurn_app tid c l1 l2 :
  resolveTurn tid c (l1 ++ l2) = resolveTurn tid c l1 ++ resolveTurn tid c l2.
Proof. apply map_app. Qed.

Lemma resolveTurn_fresh tid c prev :
  ~ In tid (map id prev) -> resolveTurn tid c prev = prev.
Proof.
  unfold resolveTurn. induction prev as [|m prev IH]; simpl; intros H; [reflexivity|].
  destruct (JsString.eqb (id m) tid) eqn:E.
  - apply JsStringFacts.eqb_eq in E. tauto.
  - f_equal. apply IH. tauto.
Qed.

Lemma discardTurn_ids tid prev :
  map id (discardTurn tid prev)
  = filter (fun i => negb (JsString.eqb i tid)) (map id prev).
Proof.
  unfold discardTurn. induction prev as [|m prev IH]; simpl; [reflexivity|].
  destruct (JsString.eqb (id m) tid); simpl; now rewrite IH.
Qed.

(** X1. Resolving or discarding an id that no turn of the ledger carries
    leaves the ledger as it is. *)
Theorem absent_id_leaves_ledger :
  forall tid c prev,
    ~ In tid (map id prev) ->
    resolveTurn tid c prev = prev /\ discardTurn tid prev = prev.
Proof.
  intros tid c prev H. split.
  - now apply resolveTurn_fresh.
  - now apply discardTurn_fresh.
Qed.

Lemma absent_id_leaves_ledger_witness :
  resolveTurn (js "zz") (js "late answer") threeTurns = threeTurns
  /\ discardTurn (js "zz") threeTurns = threeTurns.
Proof.
  apply absent_id_leaves_ledger. vm_compute.
  intros [E|[E|[E|[]]]]; discriminate.
Defined.

(** *** Turn orchestration: the ledger and the prompt *)

(** The ledger a turn orchestration leaves, in terms of the initial one. *)
Lemma handleSendMessage_ledger chatSession nanoidValue w prompt hiddenPrompt :
  chatHistory (app (final (handleSendMessage chatSession nanoidValue prompt hiddenPrompt w)))
  = resolveTurn (nanoidValue (nanoCalls w))
      (resolutionText (chatSession (gatewayLog w) (JsString.orOptional hiddenPrompt prompt)))
      (chatHistory (app w)
       ++ userTurnOf (nanoidValue (S (nanoCalls w))) prompt
       ++ [thinkingTurn (nanoidValue (nanoCalls w))]).
Proof. rewrite handleSendMessage_run. reflexivity. Qed.

(** X2. Whatever the backend answers and whatever the ids are, a turn
    orchestration keeps the ids and the roles of the turns of the ledger and
    their order, and adds after them the user turn, when the visible prompt
    is not empty, and one assistant turn. *)
Theorem send_message_keeps_ids_and_roles :
  forall chatSession nanoidValue w prompt hiddenPrompt,
    let r := handleSendMessage chatSession nanoidValue prompt hiddenPrompt w in
    let added := userTurnOf (nanoidValue (S (nanoCalls w))) prompt in
    map id (chatHistory (app (final r)))
      = map id (chatHistory (app w)) ++ map id added ++ [nanoidValue (nanoCalls w)]
    /\ map role (chatHistory (app (final r)))
      = map role (chatHistory (app w)) ++ map role added ++ [model]
    /\ (prompt = [] <-> added = [])
    /\ (prompt <> [] ->
        added = [mkChatMessage (nanoidValue (S (nanoCalls w))) user prompt None]).
Proof.
  intros chat nano w prompt hidden r added. subst r.
  rewrite handleSendMessage_ledger, resolveTurn_ids, resolveTurn_roles.
  rewrite !map_app. fold added.
  repeat split; try reflexivity.
  - intros ->. reflexivity.
  - subst added. unfold userTurnOf. destruct prompt; [reflexivity|discriminate].
  - subst added. unfold userTurnOf. destruct prompt; [congruence|reflexivity].
Qed.

Lemma send_message_keeps_ids_and_roles_witness :
  let r := handleSendMessage chatEcho nanoidSeq (js "hi") None (talkingWorld [] []) in
  map id (chatHistory (app (final r)))
    = [js "a"; js "b"; js "c"; nanoidSeq 1; nanoidSeq 0]
  /\ map role (chatHistory (app (final r))) = [system; user; model; user; model].
Proof.
  pose proof (send_message_keeps_ids_and_roles chatEcho nanoidSeq
                (talkingWorld [] []) (js "hi") None) as [I [R _]].
  split; [exact I|exact R].
Defined.

(** X3. When the id of the placeholder is carried by no earlier turn and is
    not the id of the user turn, a turn orchestration leaves every earlier
    turn and the user turn as they were, and after them the placeholder
    resolved to the text of the response, or to the error text when the
    backend failed. *)
Theorem send_message_touches_only_its_placeholder :
  forall chatSession nanoidValue w prompt hiddenPrompt,
    let thinkingId := nanoidValue (nanoCalls w) in
    let userId := nanoidValue (S (nanoCalls w)) in
    ~ In thinkingId (map id (chatHistory (app w))) ->
    thinkingId <> userId ->
    let r := handleSendMessage chatSession nanoidValue prompt hiddenPrompt w in
    chatHistory (app (final r))
    = chatHistory (app w) ++ userTurnOf userId prompt
      ++ [mkChatMessage thinkingId model
            (resolutionText
               (chatSession (gatewayLog w) (JsString.orOptional hiddenPrompt prompt)))
            (Some false)].
Proof.
  intros chat nano w prompt hidden tid uid Hfresh Hneq r. subst r.
  rewrite handleSendMessage_ledger. fold tid uid.
  rewrite !resolveTurn_app.
  rewrite (@resolveTurn_fresh tid _ (chatHistory (app w)) Hfresh).
  f_equal. f_equal.
  - apply resolveTurn_fresh. unfold userTurnOf.
    destruct (JsString.truthy prompt); simpl; [|tauto].
    intros [E|[]]. congruence.
  - unfold thinkingTurn, resolveTurn. simpl. now rewrite JsStringFacts.eqb_refl.
Qed.

Lemma nanoidSeq_injective n m : nanoidSeq n = nanoidSeq m -> n = m.
Proof.
  unfold nanoidSeq. intros H. apply app_inv_head in H.
  injection H as H. now apply Nat2N.inj.
Qed.

Lemma send_message_touches_only_its_placeholder_witness :
  chatHistory (app (final (handleSendMessage chatEcho nanoidSeq (js "hi") None
                             (talkingWorld [] []))))
  = threeTurns
    ++ [mkChatMessage (nanoidSeq 1) user (js "hi") None;
        mkChatMessage (nanoidSeq 0) model (js "hi") (Some false)].
Proof.
  refine (send_message_touches_only_its_placeholder chatEcho nanoidSeq
            (talkingWorld [] []) (js "hi") None _ _).
  - vm_compute. intros [E|[E|[E|[]]]]; discriminate.
  - intros E. apply nanoidSeq_injective in E. discriminate.
Defined.

(** *** Distinct ids *)

Lemma NoDup_snoc {A} (l : list A) (x : A) :
  NoDup l -> ~ In x l -> NoDup (l ++ [x]).
Proof.
  induction 1 as [|y l Hy Hl IH]; simpl; intros Hx.
  - constructor; [tauto|constructor].
  - constructor.
    + rewrite in_app_iff. simpl. intros [H|[H|[]]]; [tauto|]. subst. tauto.
    + apply IH. tauto.
Qed.

(** The state an accepted continuation leaves, whatever the stream does. *)
Lemma handleContinueWriting_leaves generateContentStream nanoidValue w :
  isAiResponding (app w) = false ->
  let thinkingId := nanoidValue (nanoCalls w) in
  let r := handleContinueWriting generateContentStream nanoidValue w in
  completion r = Normal tt
  /\ nanoCalls (final r) = S (nanoCalls w)
  /\ gatewayLog (final r)
     = gatewayLog w ++ [GenerateContentStream (streamContents (storyContent (app w)))]
  /\ savedFiles (final r) = savedFiles w
  /\ app (final r)
     = match generateContentStream (gatewayLog w)
               (streamContents (storyContent (app w))) with
       | Normal stream =>
           settled thinkingId (interruption stream)
             (afterChunks (chunks stream)
                (initialCurrentContent (storyContent (app w)))
                (requesting thinkingId (app w)))
       | Throw e => settled thinkingId (Some e) (requesting thinkingId (app w))
       end.
Proof.
  intros H tid r. subst r.
  destruct (generateContentStream (gatewayLog w)
              (streamContents (storyContent (app w)))) as [stream|e] eqn:G.
  - rewrite (handleContinueWriting_opened generateContentStream nanoidValue w H G).
    repeat split.
  - rewrite (handleContinueWriting_refused generateContentStream nanoidValue w H G).
    repeat split.
Qed.

(** X4. When the ids of the ledger are distinct and the ids that [nanoid]
    gives next are new and differ from each other, the ids of the ledger
    are still distinct after a turn orchestration, after a system message
    and after a streaming continuation, whatever the backend does. *)
Theorem ledger_ids_stay_distinct :
  forall chatSession generateContentStream nanoidValue w prompt hiddenPrompt c,
    let ids := map id (chatHistory (app w)) in
    NoDup ids ->
    ~ In (nanoidValue (nanoCalls w)) ids ->
    ~ In (nanoidValue (S (nanoCalls w))) ids ->
    nanoidValue (nanoCalls w) <> nanoidValue (S (nanoCalls w)) ->
    NoDup (map id (chatHistory (app (final
             (handleSendMessage chatSession nanoidValue prompt hiddenPrompt w)))))
    /\ NoDup (map id (chatHistory (app (final (addSystemMessage nanoidValue c w)))))
    /\ NoDup (map id (chatHistory (app (final
             (handleContinueWriting generateContentStream nanoidValue w))))).
Proof.
  intros chat gen nano w prompt hidden c ids Hnd Ht Hu Hne.
  split; [|split].
  - rewrite handleSendMessage_ledger, resolveTurn_ids, app_assoc, map_app.
    apply NoDup_snoc.
    + rewrite map_app. unfold userTurnOf.
      destruct (JsString.truthy prompt); simpl.
      * now apply NoDup_snoc.
      * now rewrite app_nil_r.
    + rewrite map_app, in_app_iff. unfold userTurnOf.
      destruct (JsString.truthy prompt); simpl; intuition congruence.
  - cbn. rewrite map_app. now apply NoDup_snoc.
  - destruct (isAiResponding (app w)) eqn:B.
    + now rewrite (handleContinueWriting_busy gen nano w B).
    + destruct (handleContinueWriting_leaves gen nano w B) as (_ & _ & _ & _ & E).
      rewrite E.
      assert (R : forall e s,
                 chatHistory s = chatHistory (requesting (nano (nanoCalls w)) (app w)) ->
                 NoDup (map id (chatHistory (settled (nano (nanoCalls w)) (Some e) s)))).
      { intros e s Hs. cbn. rewrite Hs, resolveTurn_ids. cbn.
        rewrite map_app. now apply NoDup_snoc. }
      destruct (gen (gatewayLog w) (streamContents (storyContent (app w))))
        as [stream|e]; [|now apply R].
      destruct (interruption stream) as [e|]; [apply R, afterChunks_chatHistory|].
      unfold settled, resolving, settledHistory.
      change (chatHistory (set_isAiResponding false ?x)) with (chatHistory x).
      cbn [set_chatHistory chatHistory]. rewrite afterChunks_chatHistory.
      unfold requesting. cbn [set_chatHistory chatHistory].
      unfold continuingTurn. rewrite discardTurn_last, discardTurn_ids.
      now apply NoDup_filter.
Qed.

Lemma ledger_ids_stay_distinct_witness :
  let w := talkingWorld (js "Once upon a time") [] in
  NoDup (map id (chatHistory (app (final
           (handleSendMessage chatEcho nanoidSeq (js "hi") None w)))))
  /\ NoDup (map id (chatHistory (app (final (addSystemMessage nanoidSeq (js "translate") w)))))
  /\ NoDup (map id (chatHistory (app (final
           (handleContinueWriting (streamOf heroChunks (Some quotaError)) nanoidSeq w))))).
Proof.
  refine (ledger_ids_stay_distinct chatEcho (streamOf heroChunks (Some quotaError))
            nanoidSeq (talkingWorld (js "Once upon a time") []) (js "hi") None
            (js "translate") _ _ _ _).
  - vm_compute. repeat constructor; simpl; intros H;
      repeat (destruct H as [H|H]; [discriminate|]); exact H.
  - vm_compute. intros [E|[E|[E|[]]]]; discriminate.
  - vm_compute. intros [E|[E|[E|[]]]]; discriminate.
  - intros E. apply nanoidSeq_injective in E. discriminate.
Defined.

(** *** The prompt that reaches the backend *)

Lemma handleSendMessage_silent chatSession nanoidValue w hiddenPrompt :
  silentTurn w (JsString.orOptional hiddenPrompt [])
    (handleSendMessage chatSession nanoidValue [] hiddenPrompt w).
Proof.
  unfold silentTurn. rewrite handleSendMessage_ledger, resolveTurn_roles.
  rewrite handleSendMessage_run. cbn [completion final gatewayLog nanoCalls].
  repeat split. now rewrite !map_app.
Qed.

Lemma handleSendMessage_hidden chatSession nanoidValue w hiddenPrompt :
  hiddenPrompt <> [] ->
  silentTurn w hiddenPrompt
    (handleSendMessage chatSession nanoidValue [] (Some hiddenPrompt) w).
Proof.
  intros H.
  pose proof (handleSendMessage_silent chatSession nanoidValue w (Some hiddenPrompt)) as S.
  destruct hiddenPrompt; [congruence|exact S].
Qed.

Lemma literal_app_nonempty (a b : jsstring) : a <> [] -> a ++ b <> [].
Proof. destruct a; simpl; congruence. Qed.

(** X5. A hidden prompt that is not empty is what the backend receives;
    without one, or with an empty one, the backend receives the visible
    prompt, the empty string included: [handleSendMessage] rejects no
    prompt. *)
Theorem hidden_prompt_goes_to_backend :
  forall chatSession nanoidValue w prompt hiddenPrompt,
    let r := handleSendMessage chatSession nanoidValue prompt hiddenPrompt w in
    (forall h, hiddenPrompt = Some h -> h <> [] ->
       gatewayLog (final r) = gatewayLog w ++ [SendMessage h])
    /\ (hiddenPrompt = None \/ hiddenPrompt = Some [] ->
        gatewayLog (final r) = gatewayLog w ++ [SendMessage prompt]).
Proof.
  intros chat nano w prompt hidden r. subst r.
  rewrite handleSendMessage_run. cbn [final gatewayLog].
  split.
  - intros h -> Hh. destruct h; [congruence|reflexivity].
  - intros [->| ->]; reflexivity.
Qed.

Lemma hidden_prompt_goes_to_backend_witness :
  gatewayLog (final (handleSendMessage chatEcho nanoidSeq (js "visible")
                       (Some (js "hidden")) (idleWorld [] [])))
    = [SendMessage (js "hidden")]
  /\ gatewayLog (final (handleSendMessage chatEcho nanoidSeq [] (Some [])
                          (idleWorld [] [])))
    = [SendMessage []].
Proof.
  split.
  - refine (proj1 (hidden_prompt_goes_to_backend chatEcho nanoidSeq (idleWorld [] [])
                     (js "visible") (Some (js "hidden"))) (js "hidden") eq_refl _).
    discriminate.
  - exact (proj2 (hidden_prompt_goes_to_backend chatEcho nanoidSeq (idleWorld [] [])
                    [] (Some [])) (or_intror eq_refl)).
Defined.

(** X6. The title, character and plot-twist actions are silent turns: each
    sends its instruction, with the manuscript between quotes where the
    instruction has one, and shows no user turn. *)
Theorem story_actions_are_silent :
  forall chatSession nanoidValue w,
    silentTurn w
      (js "Based on the following story, suggest 5 creative titles. Story: "
       ++ JsString.dquote ++ storyContent (app w) ++ JsString.dquote)
      (handleSuggestTitles chatSession nanoidValue w)
    /\ silentTurn w
      (js "Generate 3 diverse and interesting character ideas for a story. Provide a name and a short description for each.")
      (handleGetCharacterIdeas chatSession nanoidValue w)
    /\ silentTurn w
      (js "Based on the following story, suggest one surprising plot twist. Story: "
       ++ JsString.dquote ++ storyContent (app w) ++ JsString.dquote)
      (handleSuggestPlotTwist chatSession nanoidValue w).
Proof.
  intros chat nano w.
  unfold handleSuggestTitles, handleSuggestPlotTwist, handleGetCharacterIdeas.
  rewrite !bind_captured.
  split; [|split]; apply handleSendMessage_hidden;
    try apply literal_app_nonempty; vm_compute; discriminate.
Qed.

(** X7. The brainstorming shortcut shows its sentence as a user turn and
    sends the same sentence; the writer's block shortcut only appends a
    system turn. *)
Theorem shortcuts_of_the_toolbar :
  forall chatSession nanoidValue w,
    let sentence := js "Let's brainstorm some ideas for my story." in
    let r := onDiscussIdea chatSession nanoidValue w in
    gatewayLog (final r) = gatewayLog w ++ [SendMessage sentence]
    /\ map role (chatHistory (app (final r)))
       = map role (chatHistory (app w)) ++ [user; model]
    /\ (exists s, nth_error (trace r) 1 = Some s
                  /\ chatHistory s
                     = chatHistory (app w)
                       ++ [mkChatMessage (nanoidValue (S (nanoCalls w))) user sentence None;
                           thinkingTurn (nanoidValue (nanoCalls w))])
    /\ advisoryOnly w (onWritersBlock nanoidValue w).
Proof.
  intros chat nano w sentence r. subst r. unfold onDiscussIdea, onWritersBlock.
  rewrite handleSendMessage_ledger, resolveTurn_roles, handleSendMessage_run.
  cbn [final gatewayLog trace nth_error].
  split; [reflexivity|]. split; [now rewrite !map_app|].
  split; [eexists; split; reflexivity|].
  apply addSystemMessage_advisoryOnly.
Qed.

(** *** The actions on a selection, when there is one *)

Lemma handleTranslate_selected nanoidValue w :
  JsString.blank (selectedText (app w)) = false ->
  handleTranslate nanoidValue w = addSystemMessage nanoidValue (js "translate") w.
Proof.
  intros H. unfold handleTranslate. rewrite bind_captured.
  now rewrite JsStringFacts.not_truthy_trim, H.
Qed.

(** X8. With text selected, Improve is a silent turn whose instruction quotes
    the selection as it is, white space included. *)
Theorem improve_quotes_the_selection :
  forall chatSession nanoidValue w,
    JsString.blank (selectedText (app w)) = false ->
    silentTurn w
      (js "Rewrite the following text to be more vivid and engaging, improving the prose without adding new plot points. Text: "
       ++ JsString.dquote ++ selectedText (app w) ++ JsString.dquote)
      (handleImproveWriting chatSession nanoidValue w).
Proof.
  intros chat nano w H. unfold handleImproveWriting.
  rewrite bind_captured, JsStringFacts.not_truthy_trim, H. cbn [negb].
  apply handleSendMessage_hidden, literal_app_nonempty. vm_compute. discriminate.
Qed.

Lemma improve_quotes_the_selection_witness :
  silentTurn (idleWorld (js "Once upon a time") (js " upon "))
    (js "Rewrite the following text to be more vivid and engaging, improving the prose without adding new plot points. Text: "
     ++ JsString.dquote ++ js " upon " ++ JsString.dquote)
    (handleImproveWriting chatEcho nanoidSeq (idleWorld (js "Once upon a time") (js " upon "))).
Proof.
  exact (improve_quotes_the_selection chatEcho nanoidSeq
           (idleWorld (js "Once upon a time") (js " upon ")) eq_refl).
Defined.

(** X9. With text selected, Translate works in two phases.  The first
    appends the system turn ['translate'] and nothing else: no request, no
    change of [isAiResponding].  The choice of a language that follows
    makes one request, the instruction naming the language and quoting the
    selection, and leaves after the system turn one assistant turn and no
    user turn. *)
Theorem translate_in_two_phases :
  forall chatSession nanoidValue w language,
    JsString.blank (selectedText (app w)) = false ->
    let r1 := handleTranslate nanoidValue w in
    let r2 := handleLanguageSelect chatSession nanoidValue language (final r1) in
    chatHistory (app (final r1))
      = chatHistory (app w)
        ++ [mkChatMessage (nanoidValue (nanoCalls w)) system (js "translate") None]
    /\ gatewayLog (final r1) = gatewayLog w
    /\ isAiResponding (app (final r1)) = isAiResponding (app w)
    /\ completion r2 = Normal tt
    /\ gatewayLog (final r2)
       = gatewayLog w
         ++ [SendMessage
               (js "Translate the following text into " ++ language
                ++ js ". Only return the translated text. Text: "
                ++ JsString.dquote ++ selectedText (app w) ++ JsString.dquote)]
    /\ map role (chatHistory (app (final r2)))
       = map role (chatHistory (app w)) ++ [system; model].
Proof.
  intros chat nano w language H r1 r2. subst r2 r1.
  rewrite (handleTranslate_selected nano w H).
  set (w1 := final (addSystemMessage nano (js "translate") w)).
  assert (L1 : chatHistory (app w1)
               = chatHistory (app w)
                 ++ [mkChatMessage (nano (nanoCalls w)) system (js "translate") None])
    by reflexivity.
  assert (G1 : gatewayLog w1 = gatewayLog w) by reflexivity.
  assert (S1 : selectedText (app w1) = selectedText (app w)) by reflexivity.
  split; [exact L1|]. split; [exact G1|]. split; [reflexivity|].
  unfold handleLanguageSelect.
  rewrite bind_captured, JsStringFacts.not_truthy_trim, S1, H. cbn [negb].
  destruct (handleSendMessage_hidden chat nano w1
              (hiddenPrompt := js "Translate the following text into " ++ language
                 ++ js ". Only return the translated text. Text: "
                 ++ JsString.dquote ++ selectedText (app w) ++ JsString.dquote))
    as (C & G & _ & R).
  { apply literal_app_nonempty. vm_compute. discriminate. }
  split; [exact C|]. split; [now rewrite G, G1|].
  rewrite R, L1, map_app, <- app_assoc. reflexivity.
Qed.

Lemma translate_in_two_phases_witness :
  let w := idleWorld (js "Once upon a time") (js "upon") in
  let r2 := handleLanguageSelect chatEcho nanoidSeq (js "French")
              (final (handleTranslate nanoidSeq w)) in
  gatewayLog (final r2)
    = [SendMessage
         (js "Translate the following text into French. Only return the translated text. Text: "
          ++ JsString.dquote ++ js "upon" ++ JsString.dquote)]
  /\ map role (chatHistory (app (final r2))) = [system; model].
Proof.
  intros w r2.
  pose proof (translate_in_two_phases chatEcho nanoidSeq
                (idleWorld (js "Once upon a time") (js "upon")) (js "French") eq_refl)
    as (_ & _ & _ & _ & G & R).
  split; [exact G|exact R].
Defined.

(** *** The manuscript during a continuation *)

Lemma extendedBy_refl x : extendedBy x x.
Proof. exists []. now rewrite app_nil_r. Qed.

Lemma extendedBy_trans x y z : extendedBy x y -> extendedBy y z -> extendedBy x z.
Proof. intros [t ->] [u ->]. exists (t ++ u). now rewrite app_assoc. Qed.

Lemma extendedBy_app x t : extendedBy x (x ++ t).
Proof. now exists t. Qed.

Lemma initialCurrentContent_extends s : extendedBy s (initialCurrentContent s).
Proof.
  unfold initialCurrentContent.
  destruct ((0 <? length s) && negb (JsString.endsWith s (js " ")))%bool.
  - apply extendedBy_app.
  - apply extendedBy_refl.
Qed.

(** The contents that the loop exposes form a chain: each extends the
    content the loop started from, is extended by each later one, and by
    the content the loop leaves. *)
Lemma forAwait_contents_chain cs interrupt cur w :
  extendedBy (storyContent (app w)) cur ->
  let r := forAwait cs interrupt cur w in
  let contents := map storyContent (trace r) in
  ForallOrdPairs extendedBy contents
  /\ Forall (extendedBy (storyContent (app w))) contents
  /\ Forall (fun x => extendedBy x (storyContent (app (final r)))) contents
  /\ extendedBy (storyContent (app w)) (storyContent (app (final r))).
Proof.
  revert cur w. induction cs as [|c cs IH]; intros cur w Hcur r contents;
    subst contents r.
  - rewrite forAwait_nil. cbn [trace final map].
    repeat split; repeat constructor; apply extendedBy_refl.
  - rewrite forAwait_cons. cbn [trace final map completion].
    set (w' := withApp w (set_storyContent (cur ++ text c) (app w))).
    assert (Hw' : storyContent (app w') = cur ++ text c) by reflexivity.
    destruct (IH (cur ++ text c) w') as (O & S & F & E).
    { rewrite Hw'. apply extendedBy_refl. }
    rewrite Hw' in S, E.
    assert (Hstep : extendedBy (storyContent (app w)) (cur ++ text c)).
    { eapply extendedBy_trans; [exact Hcur|apply extendedBy_app]. }
    change (storyContent (set_storyContent (cur ++ text c) (app w)))
      with (cur ++ text c).
    repeat split.
    + constructor; [|constructor; assumption].
      constructor; [exact Hstep|].
      eapply Forall_impl; [|exact S]. intros x Hx.
      eapply extendedBy_trans; eassumption.
    + constructor; [apply extendedBy_refl|]. constructor; [exact Hstep|].
      eapply Forall_impl; [|exact S]. intros x Hx.
      eapply extendedBy_trans; eassumption.
    + constructor; [eapply extendedBy_trans; eassumption|].
      constructor; assumption.
    + eapply extendedBy_trans; eassumption.
Qed.

Lemma ForallOrdPairs_app {A} (R : A -> A -> Prop) (l1 l2 : list A) :
  ForallOrdPairs R l1 -> ForallOrdPairs R l2 ->
  (forall x y, In x l1 -> In y l2 -> R x y) ->
  ForallOrdPairs R (l1 ++ l2).
Proof.
  induction 1 as [|a l1 Ha H1 IH]; simpl; intros H2 H12; [exact H2|].
  constructor.
  - apply Forall_app. split; [exact Ha|].
    apply Forall_forall. intros y Hy. apply H12; [now left|exact Hy].
  - apply IH; [exact H2|]. intros x y Hx Hy. apply H12; [now right|exact Hy].
Qed.

(** X10. A continuation only ever appends to the manuscript: of the states it
    exposes, whatever the stream does, each has a content that every later
    one extends; the first of them has the content the handler started
    with. *)
Theorem continuation_only_appends :
  forall generateContentStream nanoidValue w,
    isAiResponding (app w) = false ->
    let r := handleContinueWriting generateContentStream nanoidValue w in
    ForallOrdPairs extendedBy (map storyContent (trace r))
    /\ Forall (extendedBy (storyContent (app w))) (map storyContent (trace r))
    /\ extendedBy (storyContent (app w)) (storyContent (app (final r))).
Proof.
  intros gen nano w H r. subst r.
  set (c0 := storyContent (app w)).
  destruct (gen (gatewayLog w) (streamContents c0)) as [stream|e] eqn:G.
  - rewrite (handleContinueWriting_opened gen nano w H G).
    cbn [trace final app withApp].
    set (tid := nano (nanoCalls w)).
    set (s2 := requesting tid (app w)).
    set (w3 := mkWorld s2 _ _ _).
    set (s3 := afterChunks _ _ s2).
    destruct (forAwait_contents_chain (chunks stream) (interruption stream) w3
                (cur := initialCurrentContent c0))
      as (O & S & F & E).
    { apply initialCurrentContent_extends. }
    rewrite forAwait_final in F, E. cbn [app withApp] in F, E, S. fold s3 in F, E.
    change (storyContent s2) with c0 in S, E.
    set (loop := forAwait _ _ _ w3) in *.
    change (set_isAiResponding true (app w) :: s2 :: s2 :: trace loop
            ++ [resolving tid (interruption stream) s3;
                settled tid (interruption stream) s3])
      with ([set_isAiResponding true (app w); s2; s2] ++ trace loop
            ++ [resolving tid (interruption stream) s3;
                settled tid (interruption stream) s3]).
    rewrite !map_app.
    change (map storyContent [set_isAiResponding true (app w); s2; s2])
      with [c0; c0; c0].
    change (map storyContent [resolving tid (interruption stream) s3;
                              settled tid (interruption stream) s3])
      with [storyContent s3; storyContent s3].
    change (storyContent (settled tid (interruption stream) s3))
      with (storyContent s3).
    split; [|split; [|exact E]].
    + apply ForallOrdPairs_app; [|apply ForallOrdPairs_app|].
      * repeat constructor; apply extendedBy_refl.
      * exact O.
      * repeat constructor; apply extendedBy_refl.
      * intros x y Hx [Hy|[Hy|[]]]; subst y;
          exact (proj1 (Forall_forall _ _) F x Hx).
      * intros x y Hx Hy.
        assert (Hx0 : x = c0) by (simpl in Hx; intuition congruence). subst x.
        apply in_app_iff in Hy as [Hy|[Hy|[Hy|[]]]]; try (subst y; exact E).
        exact (proj1 (Forall_forall _ _) S y Hy).
    + apply Forall_app. split; [repeat constructor; apply extendedBy_refl|].
      apply Forall_app. split; [exact S|]. repeat constructor; exact E.
  - rewrite (handleContinueWriting_refused gen nano w H G).
    cbn [trace final app withApp map].
    change (storyContent (settled _ _ (requesting _ (app w)))) with c0.
    change (storyContent (resolving _ _ (requesting _ (app w)))) with c0.
    change (storyContent (requesting _ (app w))) with c0.
    change (storyContent (set_isAiResponding true (app w))) with c0.
    repeat split; repeat constructor; apply extendedBy_refl.
Qed.

Lemma continuation_only_appends_witness :
  let r := handleContinueWriting (streamOf heroChunks (Some quotaError)) nanoidSeq
             (idleWorld (js "Once upon a time") []) in
  ForallOrdPairs extendedBy (map storyContent (trace r))
  /\ Forall (extendedBy (js "Once upon a time")) (map storyContent (trace r))
  /\ extendedBy (js "Once upon a time") (storyContent (app (final r))).
Proof.
  exact (continuation_only_appends (streamOf heroChunks (Some quotaError)) nanoidSeq
           (idleWorld (js "Once upon a time") []) eq_refl).
Defined.

Lemma forAwait_no_chunk_trace interrupt cur w :
  trace (forAwait [] interrupt cur w) = [app w].
Proof. now rewrite forAwait_nil. Qed.

(** X11. A continuation whose stream cannot be opened, or opens and delivers
    no increment, never writes the manuscript: not even the separating
    space is added. *)
Theorem continuation_without_increment_writes_nothing :
  forall generateContentStream nanoidValue w,
    isAiResponding (app w) = false ->
    match generateContentStream (gatewayLog w)
            (streamContents (storyContent (app w))) with
    | Normal stream => chunks stream = []
    | Throw _ => True
    end ->
    let r := handleContinueWriting generateContentStream nanoidValue w in
    Forall (fun s => storyContent s = storyContent (app w)) (trace r)
    /\ storyContent (app (final r)) = storyContent (app w).
Proof.
  intros gen nano w H Hno r. subst r.
  destruct (gen (gatewayLog w) (streamContents (storyContent (app w))))
    as [stream|e] eqn:G.
  - rewrite (handleContinueWriting_opened gen nano w H G).
    rewrite Hno, forAwait_no_chunk_trace.
    cbn [trace final app withApp List.app afterChunks].
    split; [|reflexivity]. repeat constructor.
  - rewrite (handleContinueWriting_refused gen nano w H G).
    cbn [trace final app withApp].
    split; [|reflexivity]. repeat constructor.
Qed.

Lemma continuation_without_increment_writes_nothing_witness :
  let r := handleContinueWriting (streamOf [] None) nanoidSeq
             (idleWorld (js "Once upon a time") []) in
  Forall (fun s => storyContent s = js "Once upon a time") (trace r)
  /\ storyContent (app (final r)) = js "Once upon a time".
Proof.
  exact (continuation_without_increment_writes_nothing (streamOf [] None) nanoidSeq
           (idleWorld (js "Once upon a time") []) eq_refl eq_refl).
Defined.

(** X12. An accepted continuation makes exactly one request to the backend,
    for the contents of the manuscript it started with, and draws exactly
    one id, whether the stream ends, fails or cannot be opened; it leaves
    the selection, the theme, the focus mode, the export flag and the saved
    files as they were. *)
Theorem continuation_makes_one_request :
  forall generateContentStream nanoidValue w,
    isAiResponding (app w) = false ->
    let r := handleContinueWriting generateContentStream nanoidValue w in
    gatewayLog (final r)
      = gatewayLog w ++ [GenerateContentStream (streamContents (storyContent (app w)))]
    /\ nanoCalls (final r) = S (nanoCalls w)
    /\ savedFiles (final r) = savedFiles w
    /\ selectedText (app (final r)) = selectedText (app w)
    /\ theme (app (final r)) = theme (app w)
    /\ isFocusMode (app (final r)) = isFocusMode (app w)
    /\ isExportingPdf (app (final r)) = isExportingPdf (app w).
Proof.
  intros gen nano w H r. subst r.
  destruct (handleContinueWriting_leaves gen nano w H) as (_ & N & G & F & E).
  split; [exact G|]. split; [exact N|]. split; [exact F|].
  rewrite E.
  destruct (gen (gatewayLog w) (streamContents (storyContent (app w))))
    as [stream|e]; [destruct (chunks stream)|]; repeat split.
Qed.

Lemma continuation_makes_one_request_witness :
  let w := idleWorld (js "Once upon a time") (js "upon") in
  let r := handleContinueWriting (streamOf heroChunks (Some quotaError)) nanoidSeq w in
  gatewayLog (final r) = [GenerateContentStream (js "Once upon a time")]
  /\ nanoCalls (final r) = 1
  /\ savedFiles (final r) = []
  /\ selectedText (app (final r)) = js "upon"
  /\ theme (app (final r)) = dark
  /\ isFocusMode (app (final r)) = false
  /\ isExportingPdf (app (final r)) = false.
Proof.
  exact (continuation_makes_one_request (streamOf heroChunks (Some quotaError)) nanoidSeq
           (idleWorld (js "Once upon a time") (js "upon")) eq_refl).
Defined.

(** *** Insertion of a suggestion *)

Lemma substring_from_start (s : jsstring) (n : nat) :
  substring s 0 (Some n) = firstn n s.
Proof.
  unfold substring. rewrite Nat.min_0_l, Nat.min_0_l, Nat.max_0_l, Nat.sub_0_r.
  simpl skipn. destruct (Nat.le_ge_cases n (length s)) as [L|L].
  - now rewrite Nat.min_l.
  - rewrite Nat.min_r by exact L. now rewrite !firstn_all2 by lia.
Qed.

Lemma substring_to_end (s : jsstring) (n : nat) :
  substring s n None = skipn n s.
Proof.
  unfold substring.
  rewrite (Nat.min_l (Nat.min n (length s)) (length s)) by apply Nat.le_min_r.
  rewrite (Nat.max_r (Nat.min n (length s)) (length s)) by apply Nat.le_min_r.
  destruct (Nat.le_ge_cases n (length s)) as [L|L].
  - rewrite Nat.min_l by exact L. apply firstn_all2. rewrite length_skipn. lia.
  - rewrite Nat.min_r, Nat.sub_diag by exact L.
    now rewrite !skipn_all2 by lia.
Qed.

Lemma substring_middle (s : jsstring) (a b : nat) :
  a <= b -> substring s a (Some b) = firstn (b - a) (skipn a s).
Proof.
  intros L. unfold substring.
  rewrite (Nat.min_l (Nat.min a (length s)) (Nat.min b (length s)))
    by (apply Nat.min_le_compat_r; exact L).
  rewrite (Nat.max_r (Nat.min a (length s)) (Nat.min b (length s)))
    by (apply Nat.min_le_compat_r; exact L).
  destruct (Nat.le_ge_cases a (length s)) as [La|La].
  - rewrite (Nat.min_l a) by exact La.
    destruct (Nat.le_ge_cases b (length s)) as [Lb|Lb].
    + now rewrite Nat.min_l.
    + rewrite Nat.min_r by exact Lb.
      rewrite !firstn_all2; [reflexivity| |]; rewrite length_skipn; lia.
  - rewrite !Nat.min_r by lia. now rewrite !skipn_all2, !firstn_nil by lia.
Qed.

Lemma handleSuggestionClick_run el text w :
  handleSuggestionClick (Some el) text w
  = let s := set_storyContent
               (firstn (selectionStart el) (storyContent (app w)) ++ text
                ++ skipn (selectionEnd el) (storyContent (app w))) (app w) in
    mkRun (Normal tt) (withApp w s) [s].
Proof.
  unfold handleSuggestionClick. rewrite bind_captured.
  now rewrite substring_from_start, substring_to_end.
Qed.

(** X14. With the textarea mounted, a click on a suggestion replaces the
    selected range of the manuscript by the suggestion and keeps what is
    before and after it; for a range within the manuscript the length
    changes by the length of the suggestion minus that of the range.  The
    handler makes no request and touches neither the ledger nor
    [isAiResponding].  Without the textarea it does nothing. *)
Theorem suggestion_replaces_the_selection :
  forall text w,
    handleSuggestionClick None text w = mkRun (Normal tt) w []
    /\ forall el,
        let a := selectionStart el in
        let b := selectionEnd el in
        let r := handleSuggestionClick (Some el) text w in
        storyContent (app (final r))
          = firstn a (storyContent (app w)) ++ text ++ skipn b (storyContent (app w))
        /\ gatewayLog (final r) = gatewayLog w
        /\ chatHistory (app (final r)) = chatHistory (app w)
        /\ isAiResponding (app (final r)) = isAiResponding (app w)
        /\ (a <= b <= length (storyContent (app w)) ->
            length (storyContent (app (final r))) + (b - a)
            = length (storyContent (app w)) + length text).
Proof.
  intros text w. split.
  - unfold handleSuggestionClick. now rewrite bind_captured.
  - intros el a b r. subst r. rewrite handleSuggestionClick_run.
    cbn [final app withApp gatewayLog].
    repeat split.
    intros [Lab Lb].
    change (storyContent (set_storyContent ?v _)) with v.
    rewrite !length_app, length_firstn, length_skipn. fold a b. lia.
Qed.

Lemma suggestion_replaces_the_selection_witness :
  let w := idleWorld (js "Once upon a time") (js "upon") in
  let r := handleSuggestionClick (Some (mkTextArea 5 9)) (js "in") w in
  storyContent (app (final r)) = js "Once in a time"
  /\ length (storyContent (app (final r))) + 4 = 16 + 2.
Proof.
  intros w r.
  pose proof (proj2 (suggestion_replaces_the_selection (js "in")
                       (idleWorld (js "Once upon a time") (js "upon")))
                    (mkTextArea 5 9)) as (C & _ & _ & _ & L).
  split; [exact C|]. apply L. vm_compute. split; repeat constructor.
Defined.

(** X15. Replacing a range by the text it holds changes nothing; and a
    suggestion inserted at a caret within the manuscript is undone by
    replacing the range it occupies by the empty string. *)
Theorem suggestion_round_trips :
  forall text w a b,
    a <= b ->
    storyContent (app (final
      (handleSuggestionClick (Some (mkTextArea a b))
         (substring (storyContent (app w)) a (Some b)) w)))
    = storyContent (app w)
    /\ (a <= length (storyContent (app w)) ->
        storyContent (app (final
          (handleSuggestionClick (Some (mkTextArea a (a + length text))) []
             (final (handleSuggestionClick (Some (mkTextArea a a)) text w)))))
        = storyContent (app w)).
Proof.
  intros text w a b L. split.
  - rewrite handleSuggestionClick_run. cbn [final app withApp selectionStart selectionEnd].
    change (storyContent (set_storyContent ?v _)) with v.
    rewrite substring_middle by exact L.
    set (s := storyContent (app w)).
    replace (skipn b s) with (skipn (b - a) (skipn a s))
      by (rewrite skipn_skipn; f_equal; lia).
    rewrite (firstn_skipn (b - a) (skipn a s)). apply firstn_skipn.
  - intros La. rewrite !handleSuggestionClick_run.
    cbn [final app withApp selectionStart selectionEnd].
    change (storyContent (set_storyContent ?v _)) with v.
    set (s := storyContent (app w)) in *.
    assert (Lf : length (firstn a s) = a) by (rewrite length_firstn; lia).
    cbn [storyContent set_storyContent].
    rewrite firstn_app, Lf, Nat.sub_diag, firstn_O, app_nil_r.
    rewrite (firstn_all2 (firstn a s)) by lia.
    rewrite skipn_app, Lf.
    rewrite (skipn_all2 (firstn a s)) by lia.
    replace (a + length text - a) with (length text + 0) by lia.
    rewrite skipn_app, Nat.add_0_r, skipn_all, Nat.sub_diag.
    cbn [List.app skipn]. apply firstn_skipn.
Qed.

Lemma suggestion_round_trips_witness :
  let w := idleWorld (js "Once upon a time") [] in
  storyContent (app (final
    (handleSuggestionClick (Some (mkTextArea 5 9)) (js "upon") w)))
  = js "Once upon a time"
  /\ storyContent (app (final
       (handleSuggestionClick (Some (mkTextArea 5 (5 + length (js "long "))) ) []
          (final (handleSuggestionClick (Some (mkTextArea 5 5)) (js "long ") w)))))
     = js "Once upon a time".
Proof.
  intros w.
  pose proof (suggestion_round_trips (js "long ")
                (idleWorld (js "Once upon a time") []) (a := 5) (b := 9)) as T.
  destruct T as [R U]; [repeat constructor|].
  split; [exact R|]. apply U. vm_compute. repeat constructor.
Defined.

(** *** The export worker *)

Lemma export_worker_outcome nanoidValue pdfRefCurrent html2canvas w :
  let r := exportWorker nanoidValue pdfRefCurrent html2canvas w in
  completion r = Normal tt
  /\ isExportingPdf (app (final r)) = false
  /\ savedFiles (final r)
     = match pdfRefCurrent, html2canvas (storyContent (app w)) with
       | true, Normal _ => savedFiles w ++ [js "ai-story.pdf"]
       | _, _ => savedFiles w
       end.
Proof.
  cbv zeta. unfold exportWorker. destruct pdfRefCurrent; cbn [negb].
  - unfold tryCatchFinally, bind.
    cbn [suspend captured completion final trace].
    destruct (html2canvas (storyContent (app w))) as [u|e]; repeat split.
  - repeat split.
Qed.

(** X16. The export worker always completes, clears the export flag and makes
    no request to the backend.  It saves one file, ['ai-story.pdf'], when
    the preview is mounted and the rasterization goes through; when the
    rasterization throws it saves nothing and appends one system turn;
    when the preview is not mounted it saves nothing and appends nothing. *)
Theorem export_worker_always_clears_flag :
  forall nanoidValue pdfRefCurrent html2canvas w,
    let r := exportWorker nanoidValue pdfRefCurrent html2canvas w in
    let rasterized := html2canvas (storyContent (app w)) in
    completion r = Normal tt
    /\ isExportingPdf (app (final r)) = false
    /\ gatewayLog (final r) = gatewayLog w
    /\ storyContent (app (final r)) = storyContent (app w)
    /\ savedFiles (final r)
       = match pdfRefCurrent, rasterized with
         | true, Normal _ => savedFiles w ++ [js "ai-story.pdf"]
         | _, _ => savedFiles w
         end
    /\ chatHistory (app (final r))
       = match pdfRefCurrent, rasterized with
         | true, Throw _ =>
             chatHistory (app w)
             ++ [mkChatMessage (nanoidValue (nanoCalls w)) system
                   (js "Could not export to PDF. See console for details.") None]
         | _, _ => chatHistory (app w)
         end.
Proof.
  intros nano ref canvas w r rasterized. subst r rasterized.
  unfold exportWorker. destruct ref; cbn [negb].
  - unfold tryCatchFinally, bind.
    cbn [suspend captured completion final trace].
    destruct (canvas (storyContent (app w))) as [u|e]; repeat split.
  - repeat split.
Qed.

(** X17. An export requested on a manuscript with text while no export is in
    progress raises the export flag, runs the worker once and ends with
    the flag cleared: one file is saved when the preview is mounted and
    the rasterization goes through, none otherwise. *)
Theorem export_request_runs_worker_once :
  forall nanoidValue pdfRefCurrent html2canvas w,
    JsString.blank (storyContent (app w)) = false ->
    isExportingPdf (app w) = false ->
    let r := exportRequest nanoidValue pdfRefCurrent html2canvas w in
    completion r = Normal tt
    /\ hd_error (trace r) = Some (set_isExportingPdf true (app w))
    /\ isExportingPdf (app (final r)) = false
    /\ savedFiles (final r)
       = match pdfRefCurrent, html2canvas (storyContent (app w)) with
         | true, Normal _ => savedFiles w ++ [js "ai-story.pdf"]
         | _, _ => savedFiles w
         end.
Proof.
  intros nano ref canvas w Hb He r. subst r.
  assert (E : handleExportPdf w
              = mkRun (Normal tt) (withApp w (set_isExportingPdf true (app w)))
                  [set_isExportingPdf true (app w)]).
  { unfold handleExportPdf. rewrite bind_captured.
    rewrite <- (negb_involutive (JsString.truthy _)).
    now rewrite JsStringFacts.not_truthy_trim, Hb. }
  set (w1 := withApp w (set_isExportingPdf true (app w))).
  assert (R : exportRequest nano ref canvas w
              = mkRun (completion (exportWorker nano ref canvas w1))
                  (final (exportWorker nano ref canvas w1))
                  (set_isExportingPdf true (app w)
                   :: trace (exportWorker nano ref canvas w1))).
  { unfold exportRequest. rewrite bind_captured.
    unfold bind at 1. rewrite E. cbn [completion final trace].
    unfold afterRender. rewrite bind_captured.
    cbn [app withApp]. rewrite He. cbn [set_isExportingPdf isExportingPdf Bool.eqb].
    unfold exportEffect. rewrite bind_captured. reflexivity. }
  rewrite R. cbn [completion final trace hd_error].
  destruct (export_worker_outcome nano ref canvas w1) as (C & F & S).
  split; [exact C|]. split; [reflexivity|]. split; [exact F|exact S].
Qed.

Lemma export_request_runs_worker_once_witness :
  let r := exportRequest nanoidSeq true (fun _ => Throw quotaError)
             (idleWorld (js "Once upon a time") []) in
  completion r = Normal tt
  /\ hd_error (trace r)
     = Some (set_isExportingPdf true (app (idleWorld (js "Once upon a time") [])))
  /\ isExportingPdf (app (final r)) = false
  /\ savedFiles (final r) = [].
Proof.
  exact (export_request_runs_worker_once nanoidSeq true (fun _ => Throw quotaError)
           (idleWorld (js "Once upon a time") []) eq_refl eq_refl).
Defined.

(** X18. An export requested while the export flag is set starts no second
    worker: the component state and the saved files are as they were,
    whatever the manuscript holds. *)
Theorem export_request_while_exporting :
  forall nanoidValue pdfRefCurrent html2canvas w,
    isExportingPdf (app w) = true ->
    let r := exportRequest nanoidValue pdfRefCurrent html2canvas w in
    completion r = Normal tt
    /\ app (final r) = app w
    /\ savedFiles (final r) = savedFiles w
    /\ gatewayLog (final r) = gatewayLog w
    /\ nanoCalls (final r) = nanoCalls w.
Proof.
  intros nano ref canvas w He r. subst r.
  assert (K : set_isExportingPdf true (app w) = app w).
  { destruct (app w). cbn in He. subst. reflexivity. }
  assert (R : exists tr,
             exportRequest nano ref canvas w
             = mkRun (Normal tt) (withApp w (app w)) tr).
  { unfold exportRequest, handleExportPdf, afterRender.
    rewrite bind_captured. unfold bind at 1. rewrite bind_captured.
    destruct (JsString.truthy (JsString.trim (storyContent (app w))));
      cbn [setIsExportingPdf setState ret completion final trace];
      rewrite bind_captured; cbn [app withApp].
    - rewrite K, He. eexists. reflexivity.
    - rewrite He. exists []. unfold withApp. now rewrite <- World_eta. }
  destruct R as [tr ->]. repeat split.
Qed.

Lemma export_request_while_exporting_witness :
  let w := mkWorld (mkAppState dark false (js "Once upon a time") [] false [] true)
             0 [] [] in
  let r := exportRequest nanoidSeq true (fun _ => Normal tt) w in
  completion r = Normal tt
  /\ app (final r) = app w
  /\ savedFiles (final r) = []
  /\ gatewayLog (final r) = []
  /\ nanoCalls (final r) = 0.
Proof.
  exact (export_request_while_exporting nanoidSeq true (fun _ => Normal tt)
           (mkWorld (mkAppState dark false (js "Once upon a time") [] false [] true)
              0 [] []) eq_refl).
Defined.

(** *** The theme preference *)

Lemma renderTheme_changed v c :
  v <> themeValue c ->
  renderTheme v c = mkThemeCells v (Some v) (JsString.eqb v (js "dark")).
Proof.
  intros H. unfold renderTheme.
  apply JsStringFacts.eqb_neq in H. now rewrite H.
Qed.

Lemma toggleTheme_value c :
  toggleTheme c
  = let v := if JsString.eqb (themeValue c) (js "light") then js "dark" else js "light" in
    mkThemeCells v (Some v) (JsString.eqb v (js "dark")).
Proof.
  unfold toggleTheme. cbv zeta. apply renderTheme_changed.
  destruct (JsString.eqb (themeValue c) (js "light")) eqn:E.
  - apply JsStringFacts.eqb_eq in E. rewrite E. discriminate.
  - apply JsStringFacts.eqb_neq in E. congruence.
Qed.

Lemma mountTheme_value stored classBefore :
  mountTheme stored classBefore
  = let v := JsString.orOptional stored (js "dark") in
    mkThemeCells v (Some v) (JsString.eqb v (js "dark")).
Proof.
  unfold mountTheme, renderTheme, applyTheme. cbn [themeValue storedTheme darkClass].
  cbv zeta.
  destruct (JsString.eqb (JsString.orOptional stored (js "dark")) (js "dark")) eqn:E.
  - apply JsStringFacts.eqb_eq in E. now rewrite E.
  - reflexivity.
Qed.

(** The cells of a session are in step: what is stored is the theme. *)
Lemma themeSession_in_step stored classBefore clicks :
  exists v, v <> []
    /\ themeSession stored classBefore clicks
       = mkThemeCells v (Some v) (JsString.eqb v (js "dark")).
Proof.
  unfold themeSession. induction clicks as [|n IH].
  - change (Nat.iter 0 toggleTheme ?x) with x.
    rewrite mountTheme_value. cbv zeta. eexists. split; [|reflexivity].
    destruct stored as [s|]; [|discriminate].
    apply JsStringFacts.or_nonempty. discriminate.
  - rewrite Nat.iter_succ, toggleTheme_value. cbv zeta.
    eexists. split; [|reflexivity].
    destruct (JsString.eqb _ (js "light")); discriminate.
Qed.

(** X19. After the mount and after any number of clicks on the theme button,
    the stored preference is the theme in force, the root has the class
    ['dark'] exactly when the theme is ['dark'], and a new mount on what is
    stored starts with the same theme. *)
Theorem theme_preference_follows_theme :
  forall stored classBefore clicks classLater,
    let c := themeSession stored classBefore clicks in
    storedTheme c = Some (themeValue c)
    /\ darkClass c = JsString.eqb (themeValue c) (js "dark")
    /\ mountTheme (storedTheme c) classLater = c.
Proof.
  intros stored cls n cls' c. subst c.
  destruct (themeSession_in_step stored cls n) as (v & Hv & ->).
  cbn [storedTheme themeValue darkClass].
  split; [reflexivity|]. split; [reflexivity|].
  rewrite mountTheme_value. cbv zeta.
  destruct v; [congruence|reflexivity].
Qed.

(** X20. Without a stored preference, or with the empty string stored, the
    theme of the mount is ['dark']; any other stored string is taken as
    the theme, be it a theme or not. *)
Theorem theme_defaults_to_dark :
  forall classBefore,
    themeValue (mountTheme None classBefore) = js "dark"
    /\ themeValue (mountTheme (Some []) classBefore) = js "dark"
    /\ forall c s, themeValue (mountTheme (Some (c :: s)) classBefore) = c :: s.
Proof.
  intros cls. repeat split; intros; now rewrite mountTheme_value.
Qed.

(** X21. A click on the theme button gives ['dark'] from ['light'] and
    ['light'] from anything else, so after one click the theme is one of
    the two; from then on two clicks give back the same cells. *)
Theorem theme_toggle_alternates :
  forall stored classBefore clicks,
    let c := themeSession stored classBefore (S clicks) in
    (themeValue c = js "light" \/ themeValue c = js "dark")
    /\ toggleTheme (toggleTheme c) = c.
Proof.
  intros stored cls n c. subst c. unfold themeSession.
  rewrite Nat.iter_succ, !toggleTheme_value. cbv zeta. cbn [themeValue].
  destruct (JsString.eqb (themeValue (Nat.iter n toggleTheme (mountTheme stored cls)))
              (js "light")); split; auto.
Qed.

(** *** Continuing again *)

(** X13. A continuation that delivered increments, whether its stream ended
    or failed afterwards, leaves the component ready for another one: the
    next continuation is accepted and its request carries the manuscript
    with the increments kept, or the opening instruction if that is still
    the empty string. *)
Theorem continuation_resumes_from_what_was_kept :
  forall generateContentStream nanoidValue w cs ending,
    isAiResponding (app w) = false ->
    generateContentStream (gatewayLog w) (streamContents (storyContent (app w)))
      = Normal (mkStream cs ending) ->
    cs <> [] ->
    let kept := initialCurrentContent (storyContent (app w)) ++ streamedText cs in
    let w1 := final (handleContinueWriting generateContentStream nanoidValue w) in
    isAiResponding (app w1) = false
    /\ storyContent (app w1) = kept
    /\ gatewayLog (final (handleContinueWriting generateContentStream nanoidValue w1))
       = gatewayLog w
         ++ [GenerateContentStream (streamContents (storyContent (app w)));
             GenerateContentStream (streamContents kept)].
Proof.
  intros gen nano w cs ending H G Hcs kept w1.
  destruct (handleContinueWriting_leaves gen nano w H) as (_ & _ & L & _ & E).
  fold w1 in L, E. rewrite G in E. cbn [chunks interruption] in E.
  assert (B : isAiResponding (app w1) = false) by now rewrite E.
  assert (S : storyContent (app w1) = kept).
  { rewrite E.
    change (storyContent (settled ?t ?f ?s)) with (storyContent s).
    now apply afterChunks_storyContent. }
  split; [exact B|]. split; [exact S|].
  destruct (handleContinueWriting_leaves gen nano w1 B) as (_ & _ & L1 & _).
  rewrite L1, L, S, <- app_assoc. reflexivity.
Qed.

Lemma continuation_resumes_from_what_was_kept_witness :
  let w := idleWorld (js "Once upon a time") [] in
  let run := handleContinueWriting (streamOf heroChunks (Some quotaError)) nanoidSeq in
  isAiResponding (app (final (run w))) = false
  /\ storyContent (app (final (run w))) = js "Once upon a time , a hero rose."
  /\ gatewayLog (final (run (final (run w))))
     = [GenerateContentStream (js "Once upon a time");
        GenerateContentStream (js "Once upon a time , a hero rose.")].
Proof.
  refine (continuation_resumes_from_what_was_kept
            (streamOf heroChunks (Some quotaError)) nanoidSeq
            (idleWorld (js "Once upon a time") []) (cs := heroChunks)
            (ending := Some quotaError) eq_refl eq_refl _).
  discriminate.
Defined.
